(** * CoffeeOrderBuilder: a shallow embedding of [main.py]

    The builder of [main.py] is a mutable Python object whose [syrups]
    attribute refers to a mutable [set]; [build] returns a frozen
    [CoffeeOrder].  The embedding keeps that shape: a heap of objects
    (sets and orders), the builder's attributes as a record whose
    [syrups] field is a heap location, and every method as a computation
    in a state-and-exception monad. *)

From Stdlib Require Import ZArith Lia Floats.
From stdpp Require Import base gmap sets list strings sorting pretty.

Local Open Scope string_scope.
Local Open Scope Z_scope.

(** ** Python numbers

    [int] is unbounded, [float] is IEEE 754 binary64; the kernel's
    primitive floats are the same format with the same rounding. *)

Inductive num : Type :=
  | Int (z : Z)
  | Float (f : float).

(** Conversion of an [int] operand in mixed arithmetic.  Below [2^63] in
    magnitude it rounds to nearest-even as Python does; every integer of
    the catalogue, and forty times any number of syrups a set can hold in
    memory, is below [2^53] and converts exactly.  (Beyond [2^63] the
    primitive conversion wraps, where Python goes on rounding.) *)
Definition float_of_int (z : Z) : float :=
  if z <? 0 then PrimFloat.opp (PrimFloat.of_uint63 (Uint63.of_Z (- z)))
  else PrimFloat.of_uint63 (Uint63.of_Z z).

Definition num_mul (a b : num) : num :=
  match a, b with
  | Int x, Int y => Int (x * y)
  | Int x, Float g => Float (PrimFloat.mul (float_of_int x) g)
  | Float f, Int y => Float (PrimFloat.mul f (float_of_int y))
  | Float f, Float g => Float (PrimFloat.mul f g)
  end.

Definition num_add (a b : num) : num :=
  match a, b with
  | Int x, Int y => Int (x + y)
  | Int x, Float g => Float (PrimFloat.add (float_of_int x) g)
  | Float f, Int y => Float (PrimFloat.add f (float_of_int y))
  | Float f, Float g => Float (PrimFloat.add f g)
  end.

(** ** Python strings, sets of strings and their rendering

    A [str] is modelled by its UTF-8 bytes; the byte-wise lexicographic
    order [String.le] coincides with Python's code-point order. *)

(** [sorted(list(s))]: the sorted permutation is unique for a total
    order, so the sorting algorithm itself is immaterial. *)
Definition sorted (l : list string) : list string := merge_sort String.le l.

(** [sep.join(l)] *)
Definition join (sep : string) (l : list string) : string := String.concat sep l.

(** [repr] of a catalogue name and of a set of them, as an f-string
    renders [{self.VALID_BASES}].  The order is the set's iteration order,
    which Python leaves unspecified; nothing below depends on it. *)
Definition repr_str (s : string) : string := "'" +:+ s +:+ "'".

Definition repr_set (s : gset string) : string :=
  if decide (size s = 0%nat) then "set()"
  else "{" +:+ join ", " (repr_str <$> elements s) +:+ "}".

(** ** The objects

    [CoffeeOrder] is a frozen dataclass; its [syrups] attribute is a tuple
    of strings, an immutable value. *)

Record CoffeeOrder : Type := mkOrder {
  order_base : string;
  order_size : string;
  order_milk : string;
  order_syrups : list string;
  order_sugar : Z;
  order_iced : bool;
  order_price : num;
  order_description : string;
}.

Abbreviation loc := positive.

Inductive obj : Type :=
  | ObjSet (s : gset string)
  | ObjOrder (o : CoffeeOrder).

(** The attributes of the builder; [self.syrups] is a reference. *)
Record CoffeeOrderBuilder : Type := mkBuilder {
  self_base : option string;
  self_size : option string;
  self_milk : string;
  self_syrups : loc;
  self_sugar : Z;
  self_iced : bool;
}.

Record world : Type := mkWorld {
  heap : gmap loc obj;
  self : CoffeeOrderBuilder;
}.

(** The exceptions the methods can raise: the [ValueError] of the guards,
    the [KeyError] of a dictionary lookup, and [TypeError] for an
    operation of sets on an object that is not a set. *)
Inductive exn : Type :=
  | ValueError (msg : string)
  | KeyError (key : string)
  | TypeError.

Inductive result (A : Type) : Type :=
  | Ok (a : A)
  | Raise (e : exn).
Arguments Ok {A} a.
Arguments Raise {A} e.

(** ** The monad of method bodies: state passing, with exceptions that
    leave the state as it is at the point of the [raise]. *)

Definition M (A : Type) : Type := world -> result A * world.

#[global] Instance M_ret : MRet M := fun A (a : A) w => (Ok a, w).

#[global] Instance M_bind : MBind M := fun A B (k : A -> M B) (m : M A) w =>
  match m w with
  | (Ok a, w') => k a w'
  | (Raise e, w') => (Raise e, w')
  end.

Definition raise {A} (e : exn) : M A := fun w => (Raise e, w).

Definition get_self : M CoffeeOrderBuilder := fun w => (Ok (self w), w).

Definition put_self (b : CoffeeOrderBuilder) : M unit :=
  fun w => (Ok tt, mkWorld (heap w) b).

(** Reading and writing the set object behind a reference. *)
Definition load_set (l : loc) : M (gset string) :=
  fun w =>
    match heap w !! l with
    | Some (ObjSet s) => (Ok s, w)
    | _ => (Raise TypeError, w)
    end.

Definition store_set (l : loc) (s : gset string) : M unit :=
  fun w =>
    match heap w !! l with
    | Some (ObjSet _) => (Ok tt, mkWorld (<[l := ObjSet s]> (heap w)) (self w))
    | _ => (Raise TypeError, w)
    end.

(** Allocation of a new object at an unused location. *)
Definition alloc (o : obj) : M loc :=
  fun w =>
    let l := fresh (dom (heap w)) in
    (Ok l, mkWorld (<[l := o]> (heap w)) (self w)).

(** [d[k]] on a dictionary with string keys. *)
Definition dict_get (d : gmap string num) (k : string) : M num :=
  match d !! k with
  | Some v => mret v
  | None => raise (KeyError k)
  end.

(** ** Class constants *)

Definition BASE_PRICES : gmap string num :=
  <["espresso" := Int 200]> (<["americano" := Int 250]>
  (<["latte" := Int 300]> (<["cappuccino" := Int 320]> ∅))).

Definition SIZE_MULTIPLIERS : gmap string num :=
  <["small" := Float 1.0%float]> (<["medium" := Float 1.2%float]>
  (<["large" := Float 1.4%float]> ∅)).

Definition MILK_PRICES : gmap string num :=
  <["none" := Float 0.0%float]> (<["whole" := Int 30]> (<["skim" := Int 30]>
  (<["oat" := Int 60]> (<["soy" := Int 50]> ∅)))).

Definition SYRUP_PRICE : Z := 40.
Definition ICED_PRICE : Z := 20.

Definition MAX_SYRUPS : nat := 4.
Definition SUGAR_RANGE : Z * Z := (0, 5).

Definition VALID_BASES : gset string := dom BASE_PRICES.
Definition VALID_SIZES : gset string := dom SIZE_MULTIPLIERS.
Definition VALID_MILKS : gset string := dom MILK_PRICES.

(** ** Methods of [CoffeeOrderBuilder]

    Each method returns [self]; with a single builder in the world that
    return value is [tt], and a fluent chain is a sequence of binds. *)

Definition reset : M unit :=
  l ← alloc (ObjSet ∅);
  put_self (mkBuilder None None "none" l 0 false).

Definition set_base (base : string) : M unit :=
  if decide (base ∉ VALID_BASES) then
    raise (ValueError ("Invalid base: " +:+ base +:+ ". Allowed: " +:+ repr_set VALID_BASES))
  else
    b ← get_self;
    put_self (mkBuilder (Some base) (self_size b) (self_milk b)
                        (self_syrups b) (self_sugar b) (self_iced b)).

Definition set_size (size : string) : M unit :=
  if decide (size ∉ VALID_SIZES) then
    raise (ValueError ("Invalid size: " +:+ size +:+ ". Allowed: " +:+ repr_set VALID_SIZES))
  else
    b ← get_self;
    put_self (mkBuilder (self_base b) (Some size) (self_milk b)
                        (self_syrups b) (self_sugar b) (self_iced b)).

Definition set_milk (milk : string) : M unit :=
  if decide (milk ∉ VALID_MILKS) then
    raise (ValueError ("Invalid milk: " +:+ milk +:+ ". Allowed: " +:+ repr_set VALID_MILKS))
  else
    b ← get_self;
    put_self (mkBuilder (self_base b) (self_size b) milk
                        (self_syrups b) (self_sugar b) (self_iced b)).

Definition add_syrup (syrup_name : string) : M unit :=
  b ← get_self;
  s ← load_set (self_syrups b);
  if decide (MAX_SYRUPS ≤ size s)%nat then mret tt
  else store_set (self_syrups b) ({[syrup_name]} ∪ s).

Definition set_sugar (teaspoons : Z) : M unit :=
  let '(min_sugar_spoons, max_sugar_spoons) := SUGAR_RANGE in
  if negb ((min_sugar_spoons <=? teaspoons) && (teaspoons <=? max_sugar_spoons)) then
    raise (ValueError ("Sugar must be between " +:+ pretty min_sugar_spoons
                       +:+ " and " +:+ pretty max_sugar_spoons +:+ " teaspoons"))
  else
    b ← get_self;
    put_self (mkBuilder (self_base b) (self_size b) (self_milk b)
                        (self_syrups b) teaspoons (self_iced b)).

(** [set_iced(iced=True)]: a call without argument passes [true]. *)
Definition set_iced (iced : bool) : M unit :=
  b ← get_self;
  put_self (mkBuilder (self_base b) (self_size b) (self_milk b)
                      (self_syrups b) (self_sugar b) iced).

Definition clear_extras : M unit :=
  b ← get_self;
  put_self (mkBuilder (self_base b) (self_size b) "none"
                      (self_syrups b) (self_sugar b) (self_iced b));;
  store_set (self_syrups b) ∅;;
  b ← get_self;
  put_self (mkBuilder (self_base b) (self_size b) (self_milk b)
                      (self_syrups b) 0 (self_iced b));;
  b ← get_self;
  put_self (mkBuilder (self_base b) (self_size b) (self_milk b)
                      (self_syrups b) (self_sugar b) false).

(** [build].  The body reads [self.syrups] several times with no write in
    between; the set is loaded once, where [len(self.syrups)] first needs it. *)
Definition build : M loc :=
  b ← get_self;
  match self_base b with
  | None => raise (ValueError "Base must be set")
  | Some base =>
    match self_size b with
    | None => raise (ValueError "Size must be set")
    | Some size_ =>
      price ← dict_get BASE_PRICES base;
      m ← dict_get SIZE_MULTIPLIERS size_;
      let price := num_mul price m in
      mp ← dict_get MILK_PRICES (self_milk b);
      let price := num_add price mp in
      syrups ← load_set (self_syrups b);
      let price := num_add price (Int (Z.of_nat (size syrups) * SYRUP_PRICE)) in
      let price := if self_iced b then num_add price (Int ICED_PRICE) else price in
      let description := size_ +:+ " " +:+ base in
      let description :=
        if decide (self_milk b ≠ "none")
        then description +:+ " with " +:+ self_milk b +:+ " milk"
        else description in
      let description :=
        if decide (size syrups ≠ 0%nat)
        then description +:+ " + " +:+ join ", " (sorted (elements syrups))
        else description in
      let description :=
        if self_iced b then description +:+ " (iced)" else description in
      let description :=
        if 0 <? self_sugar b
        then description +:+ " " +:+ pretty (self_sugar b) +:+ " tsp sugar"
        else description in
      alloc (ObjOrder (mkOrder base size_ (self_milk b) (sorted (elements syrups))
                               (self_sugar b) (self_iced b) price description))
    end
  end.

(** [CoffeeOrderBuilder()]: [__init__] calls [reset] on the new object,
    which assigns every attribute; the record given to it stands for the
    object before any attribute exists and is overwritten whole. *)
Definition new_builder : world :=
  snd (reset (mkWorld ∅ (mkBuilder None None "" 1%positive 0 false))).

(** ** Clients

    A call of one method, and a client that makes calls one after another
    and goes on after an exception (it catches it); the state it goes on
    with is the state the failed call left. *)

Inductive call : Type :=
  | SetBase (base : string)
  | SetSize (size_ : string)
  | SetMilk (milk : string)
  | AddSyrup (syrup_name : string)
  | SetSugar (teaspoons : Z)
  | SetIced (iced : bool)
  | ClearExtras
  | Reset
  | Build.

Definition exec (c : call) : M unit :=
  match c with
  | SetBase base => set_base base
  | SetSize size_ => set_size size_
  | SetMilk milk => set_milk milk
  | AddSyrup syrup_name => add_syrup syrup_name
  | SetSugar teaspoons => set_sugar teaspoons
  | SetIced iced => set_iced iced
  | ClearExtras => clear_extras
  | Reset => reset
  | Build => build;; mret tt
  end.

Definition run (cs : list call) (w : world) : world :=
  foldl (fun w c => snd (exec c w)) w cs.

(** The setters that validate their argument. *)
Definition is_validating_setter (c : call) : bool :=
  match c with
  | SetBase _ | SetSize _ | SetMilk _ | SetSugar _ => true
  | _ => false
  end.

(** The arguments the validating setters reject. *)
Definition invalid_argument (c : call) : Prop :=
  match c with
  | SetBase base => base ∉ VALID_BASES
  | SetSize size_ => size_ ∉ VALID_SIZES
  | SetMilk milk => milk ∉ VALID_MILKS
  | SetSugar teaspoons => teaspoons < 0 \/ 5 < teaspoons
  | _ => False
  end.

(** ** Reading the state *)

(** [self.syrups] refers to a set whose elements are [s]. *)
Definition has_set (w : world) (s : gset string) : Prop :=
  heap w !! self_syrups (self w) = Some (ObjSet s).

(** The order object behind a reference returned by [build]. *)
Definition order_at (l : loc) (w : world) : option CoffeeOrder :=
  match heap w !! l with
  | Some (ObjOrder o) => Some o
  | _ => None
  end.

(** The value [build] gives to [price] and to [description], as
    functions of what the body reads (see [build_ok]). *)
Definition price_of (bp m mp : num) (n : nat) (iced : bool) : num :=
  let price := num_mul bp m in
  let price := num_add price mp in
  let price := num_add price (Int (Z.of_nat n * SYRUP_PRICE)) in
  if iced then num_add price (Int ICED_PRICE) else price.

Definition description_of (base size_ milk : string) (syrups : gset string)
    (sugar : Z) (iced : bool) : string :=
  let description := size_ +:+ " " +:+ base in
  let description :=
    if decide (milk ≠ "none") then description +:+ " with " +:+ milk +:+ " milk"
    else description in
  let description :=
    if decide (size syrups ≠ 0%nat)
    then description +:+ " + " +:+ join ", " (sorted (elements syrups))
    else description in
  let description := if iced then description +:+ " (iced)" else description in
  if 0 <? sugar then description +:+ " " +:+ pretty sugar +:+ " tsp sugar"
  else description.

Definition order_of (b : CoffeeOrderBuilder) (base size_ : string)
    (bp m mp : num) (s : gset string) : CoffeeOrder :=
  mkOrder base size_ (self_milk b) (sorted (elements s)) (self_sugar b) (self_iced b)
          (price_of bp m mp (size s) (self_iced b))
          (description_of base size_ (self_milk b) s (self_sugar b) (self_iced b)).

(** ** The footprint of a call

    What one call may do to the world: leave the heap alone, overwrite
    the builder's own set with a set within the cap, allocate one order,
    or allocate a new empty set for the builder. *)

Inductive effect (w w' : world) : Prop :=
  | effect_fields :
      heap w' = heap w ->
      self_syrups (self w') = self_syrups (self w) ->
      effect w w'
  | effect_set (s s' : gset string) :
      has_set w s ->
      (size s' <= MAX_SYRUPS)%nat ->
      heap w' = <[self_syrups (self w) := ObjSet s']> (heap w) ->
      self_syrups (self w') = self_syrups (self w) ->
      effect w w'
  | effect_order (o : CoffeeOrder) :
      heap w' = <[fresh (dom (heap w)) := ObjOrder o]> (heap w) ->
      self w' = self w ->
      effect w w'
  | effect_new_set :
      heap w' = <[fresh (dom (heap w)) := ObjSet ∅]> (heap w) ->
      self_syrups (self w') = fresh (dom (heap w)) ->
      effect w w'.

(** The invariant of the data model: each field is valid on its own,
    base and size may be absent. *)
Definition valid_state (w : world) : Prop :=
  (forall base, self_base (self w) = Some base -> base ∈ VALID_BASES) /\
  (forall size_, self_size (self w) = Some size_ -> size_ ∈ VALID_SIZES) /\
  self_milk (self w) ∈ VALID_MILKS /\
  (exists s, has_set w s /\ (size s <= MAX_SYRUPS)%nat) /\
  0 <= self_sugar (self w) <= 5.

(** ** The specification's side

    The catalogue as the specification tabulates it, and its pricing and
    description rules, to be compared with what [build] computes. *)

Definition basePriceOf (base : string) : Z :=
  if String.eqb base "espresso" then 200
  else if String.eqb base "americano" then 250
  else if String.eqb base "latte" then 300
  else if String.eqb base "cappuccino" then 320
  else 0.

Definition sizeMultiplierOf (size_ : string) : float :=
  if String.eqb size_ "small" then 1.0%float
  else if String.eqb size_ "medium" then 1.2%float
  else if String.eqb size_ "large" then 1.4%float
  else 0%float.

Definition milkPriceOf (milk : string) : Z :=
  if String.eqb milk "none" then 0
  else if String.eqb milk "whole" then 30
  else if String.eqb milk "skim" then 30
  else if String.eqb milk "oat" then 60
  else if String.eqb milk "soy" then 50
  else 0.

(** [basePrice*sizeMultiplier + milkPrice + syrupCount*40 + (20 if iced else 0)],
    read as the Python expression it is: integer operands, a fractional
    multiplier, floating-point sums from left to right. *)
Definition spec_price (base size_ milk : string) (syrupCount : nat) (iced : bool) : float :=
  PrimFloat.add
    (PrimFloat.add
       (PrimFloat.add
          (PrimFloat.mul (float_of_int (basePriceOf base)) (sizeMultiplierOf size_))
          (float_of_int (milkPriceOf milk)))
       (float_of_int (Z.of_nat syrupCount * 40)))
    (float_of_int (if iced then 20 else 0)).

(** The same price in exact arithmetic, the multiplier counted in tenths. *)
Definition sizeTenthsOf (size_ : string) : Z :=
  if String.eqb size_ "small" then 10
  else if String.eqb size_ "medium" then 12
  else if String.eqb size_ "large" then 14
  else 0.

Definition exact_price (base size_ milk : string) (syrupCount : nat) (iced : bool) : Z :=
  basePriceOf base * sizeTenthsOf size_ / 10 + milkPriceOf milk
  + Z.of_nat syrupCount * 40 + (if iced then 20 else 0).

(** The description as a concatenation of clauses, each present or
    empty; [names] is the sorted sequence of the distinct syrups. *)
Definition spec_description (base size_ milk : string) (names : list string)
    (sugar : Z) (iced : bool) : string :=
  (size_ +:+ " " +:+ base)
  +:+ (if String.eqb milk "none" then "" else " with " +:+ milk +:+ " milk")
  +:+ (match names with [] => "" | _ => " + " +:+ join ", " names end)
  +:+ (if iced then " (iced)" else "")
  +:+ (if 0 <? sugar then " " +:+ pretty sugar +:+ " tsp sugar" else "").

(** [needle] occurs in [hay]. *)
Definition occurs_in (needle hay : string) : Prop :=
  exists pre post, hay = pre +:+ needle +:+ post.

Fixpoint contains (needle hay : string) : bool :=
  String.prefix needle hay ||
  match hay with
  | EmptyString => false
  | String _ hay' => contains needle hay'
  end.

Definition lower_ascii (c : Ascii.ascii) : Ascii.ascii :=
  let n := Ascii.N_of_ascii c in
  if ((65 <=? n) && (n <=? 90))%N then Ascii.ascii_of_N (n + 32) else c.

Fixpoint lower (s : string) : string :=
  match s with
  | EmptyString => EmptyString
  | String c s' => String (lower_ascii c) (lower s')
  end.

(** A message mentions a field when the field's name occurs in it,
    whatever the case of the letters. *)
Definition mentions (field msg : string) : bool := contains (lower field) (lower msg).

(** ** Scenarios of [tests.py] *)

(** [test_basic_order] *)
Definition scenario_basic_order : M loc :=
  set_base "latte";; set_size "medium";; set_milk "oat";; add_syrup "vanilla";;
  set_sugar 2;; set_iced true;; build.

(** [test_builder_reuse]: the two orders, in the order they are built. *)
Definition scenario_builder_reuse : M (loc * loc) :=
  order1 ← (set_base "latte";; set_size "medium";; build);
  order2 ← (set_base "americano";; set_size "large";; clear_extras;;
            add_syrup "caramel";; build);
  mret (order1, order2).

(** [test_logic_checks]: the same syrup added twice, then the same drink
    built without and with ice. *)
Definition scenario_logic_checks : M (loc * loc * loc) :=
  order_syrup ← (reset;; set_base "cappuccino";; set_size "small";;
                 add_syrup "chocolate";; add_syrup "chocolate";; build);
  order_no_ice ← (set_iced false;; build);
  order_with_ice ← (set_iced true;; build);
  mret (order_syrup, order_no_ice, order_with_ice).

(** ** [CoffeeOrder.__str__]

    The format specification [.2f]: the decimal expansion of the exact
    binary value, rounded to two places, ties to the even neighbour. *)

(** [n / d] rounded to the nearest integer, ties to even ([0 <= n], [0 < d]). *)
Definition round_half_even (n d : Z) : Z :=
  let q := n / d in
  match 2 * (n mod d) ?= d with
  | Lt => q
  | Gt => q + 1
  | Eq => if Z.even q then q else q + 1
  end.

Definition two_digits (n : Z) : string :=
  if n <? 10 then "0" +:+ pretty n else pretty n.

Definition format_2f (x : float) : string :=
  match Prim2SF x with
  | S754_nan => "nan"
  | S754_infinity s => if s then "-inf" else "inf"
  | S754_zero s => if s then "-0.00" else "0.00"
  | S754_finite s m e =>
      let hundredths :=
        if 0 <=? e then Zpos m * 2 ^ e * 100
        else round_half_even (Zpos m * 100) (2 ^ (- e)) in
      (if s then "-" else "")
      +:+ pretty (hundredths / 100) +:+ "." +:+ two_digits (hundredths mod 100)
  end.

(** [f'{price:.2f}'] on a number: an [int] is converted first. *)
Definition format_price (price : num) : string :=
  match price with
  | Int z => format_2f (float_of_int z)
  | Float f => format_2f f
  end.

(** [__str__]: the description when it is not empty, else the price. *)
Definition order_str (o : CoffeeOrder) : string :=
  match order_description o with
  | EmptyString => "Price: " +:+ format_price (order_price o)
  | _ => order_description o
  end.

(** The attribute a setter assigns. *)
Definition field_set_by (c : call) : option string :=
  match c with
  | SetBase _ => Some "base"
  | SetSize _ => Some "size"
  | SetMilk _ => Some "milk"
  | SetSugar _ => Some "sugar"
  | SetIced _ => Some "iced"
  | _ => None
  end.

(** ** Facts about binary64 addition

    [x + 0.0 = x] fails only for the negative zero; every price is a sum
    of non-negative terms, which rules it out. *)

Definition sf_nonneg (x : spec_float) : bool :=
  match x with
  | S754_zero s | S754_infinity s | S754_finite s _ _ => negb s
  | S754_nan => true
  end.

Definition float_nonneg (x : float) : bool := sf_nonneg (Prim2SF x).

(** Unfolding a method body down to the primitives of the monad. *)
Ltac unfold_method :=
  unfold reset, set_base, set_size, set_milk, add_syrup, set_sugar, set_iced,
    clear_extras, mbind, M_bind, mret, M_ret, raise, get_self, put_self,
    load_set, store_set, alloc; cbn.

(** What a setter leaves behind: the heap as it was, and either the
    builder as it was or the builder with the one field assigned. *)
Ltac setter_outcomes :=
  unfold run; cbn [foldl exec];
  unfold set_base, set_size, set_milk, set_sugar, set_iced, mbind, M_bind, raise,
    get_self, put_self, SUGAR_RANGE;
  repeat match goal with
         | |- context [decide ?P] => destruct (decide P)
         | |- context [negb ((?a <=? ?b) && (?c <=? ?d))] =>
             destruct (Z.leb_spec a b); destruct (Z.leb_spec c d)
         end;
  cbn.

Section float_facts.

Lemma binary_round_aux_nonneg m e l :
  sf_nonneg (binary_round_aux prec emax false m e l) = true.
Proof.
  unfold binary_round_aux.
  destruct (shr_fexp prec emax m e l) as [mrs' e'].
  destruct (shr_fexp prec emax _ e' loc_Exact) as [mrs'' e''].
  destruct (shr_m mrs''); simpl; [reflexivity| |reflexivity].
  destruct (e'' <=? emax - prec); reflexivity.
Qed.

Lemma binary_round_nonneg m e :
  sf_nonneg (binary_round prec emax false m e) = true.
Proof.
  unfold binary_round.
  destruct (shl_align m e _) as [mz ez].
  apply binary_round_aux_nonneg.
Qed.

Lemma binary_normalize_nonneg z e :
  0 <= z -> sf_nonneg (binary_normalize prec emax z e false) = true.
Proof.
  intros Hz. destruct z as [|p|p]; simpl.
  - reflexivity.
  - apply binary_round_nonneg.
  - lia.
Qed.

Lemma float_of_int_nonneg z : 0 <= z -> float_nonneg (float_of_int z) = true.
Proof.
  intros Hz. unfold float_nonneg, float_of_int.
  destruct (Z.ltb_spec z 0) as [?|_]; [lia|].
  rewrite of_uint63_spec. apply binary_normalize_nonneg.
  apply Uint63.to_Z_bounded.
Qed.

Lemma SF64add_nonneg x y :
  sf_nonneg x = true -> sf_nonneg y = true -> sf_nonneg (SF64add x y) = true.
Proof.
  destruct x as [[]|[]| |[] mx ex], y as [[]|[]| |[] my ey];
    simpl; try discriminate; try reflexivity; intros _ _.
  apply binary_round_nonneg.
Qed.

Lemma float_add_nonneg x y :
  float_nonneg x = true -> float_nonneg y = true ->
  float_nonneg (PrimFloat.add x y) = true.
Proof.
  unfold float_nonneg. rewrite add_spec. apply SF64add_nonneg.
Qed.

Lemma float_add_zero_r x :
  float_nonneg x = true -> PrimFloat.add x (float_of_int 0) = x.
Proof.
  unfold float_nonneg. intros Hx. apply Prim2SF_inj. rewrite add_spec.
  change (Prim2SF (float_of_int 0)) with (S754_zero false).
  destruct (Prim2SF x) as [[]|[]| |[] mx ex]; simpl in *;
    try discriminate; reflexivity.
Qed.

End float_facts.


(** ** The catalogue *)

Lemma elem_of_VALID_BASES x :
  x ∈ VALID_BASES <->
  x = "espresso" \/ x = "americano" \/ x = "latte" \/ x = "cappuccino".
Proof.
  unfold VALID_BASES, BASE_PRICES. rewrite !dom_insert_L, dom_empty_L.
  rewrite !elem_of_union, !elem_of_singleton, elem_of_empty. tauto.
Qed.

Lemma elem_of_VALID_SIZES x :
  x ∈ VALID_SIZES <-> x = "small" \/ x = "medium" \/ x = "large".
Proof.
  unfold VALID_SIZES, SIZE_MULTIPLIERS. rewrite !dom_insert_L, dom_empty_L.
  rewrite !elem_of_union, !elem_of_singleton, elem_of_empty. tauto.
Qed.

Lemma elem_of_VALID_MILKS x :
  x ∈ VALID_MILKS <->
  x = "none" \/ x = "whole" \/ x = "skim" \/ x = "oat" \/ x = "soy".
Proof.
  unfold VALID_MILKS, MILK_PRICES. rewrite !dom_insert_L, dom_empty_L.
  rewrite !elem_of_union, !elem_of_singleton, elem_of_empty. tauto.
Qed.

Lemma BASE_PRICES_lookup base :
  base ∈ VALID_BASES -> BASE_PRICES !! base = Some (Int (basePriceOf base)).
Proof.
  rewrite elem_of_VALID_BASES. intros [->|[->|[->| ->]]]; reflexivity.
Qed.

Lemma SIZE_MULTIPLIERS_lookup size_ :
  size_ ∈ VALID_SIZES -> SIZE_MULTIPLIERS !! size_ = Some (Float (sizeMultiplierOf size_)).
Proof.
  rewrite elem_of_VALID_SIZES. intros [->|[->| ->]]; reflexivity.
Qed.

(** ["none"] is priced by the float [0.0], the other milks by integers. *)
Lemma MILK_PRICES_lookup milk :
  milk ∈ VALID_MILKS ->
  MILK_PRICES !! milk =
    Some (if String.eqb milk "none" then Float 0%float else Int (milkPriceOf milk)).
Proof.
  rewrite elem_of_VALID_MILKS. intros [->|[->|[->|[->| ->]]]]; reflexivity.
Qed.

(** ** [build] on a state that passes its guards *)

Lemma build_ok w base size_ bp m mp s :
  self_base (self w) = Some base ->
  self_size (self w) = Some size_ ->
  BASE_PRICES !! base = Some bp ->
  SIZE_MULTIPLIERS !! size_ = Some m ->
  MILK_PRICES !! self_milk (self w) = Some mp ->
  has_set w s ->
  build w =
    (Ok (fresh (dom (heap w))),
     mkWorld (<[fresh (dom (heap w)) := ObjOrder (order_of (self w) base size_ bp m mp s)]>
                (heap w))
             (self w)).
Proof.
  intros Hb Hs Hbp Hm Hmp Hset. unfold has_set in Hset.
  unfold build, mbind, M_bind, get_self. rewrite Hb, Hs.
  unfold dict_get. rewrite Hbp, Hm, Hmp.
  unfold mret, M_ret, load_set. rewrite Hset. reflexivity.
Qed.

Lemma price_of_spec base size_ milk n iced :
  base ∈ VALID_BASES -> size_ ∈ VALID_SIZES -> milk ∈ VALID_MILKS ->
  price_of (Int (basePriceOf base)) (Float (sizeMultiplierOf size_))
           (if String.eqb milk "none" then Float 0%float else Int (milkPriceOf milk))
           n iced
  = Float (spec_price base size_ milk n iced).
Proof.
  rewrite elem_of_VALID_BASES, elem_of_VALID_SIZES, elem_of_VALID_MILKS.
  intros Hb Hs Hm.
  assert (Hn : float_nonneg (float_of_int (Z.of_nat n * 40)) = true)
    by (apply float_of_int_nonneg; lia).
  destruct Hb as [->|[->|[->| ->]]], Hs as [->|[->| ->]],
           Hm as [->|[->|[->|[->| ->]]]], iced;
    unfold price_of, spec_price, SYRUP_PRICE, ICED_PRICE; cbn;
    first [ reflexivity
          | rewrite float_add_zero_r;
            [ reflexivity | apply float_add_nonneg; [ vm_compute; reflexivity | exact Hn ] ] ].
Qed.

(** ** Pricing *)

(** Within the cap on syrups no sum or product of [spec_price] rounds:
    the floating-point price is the exact one. *)
Lemma spec_price_exact base size_ milk n iced :
  base ∈ VALID_BASES -> size_ ∈ VALID_SIZES -> milk ∈ VALID_MILKS ->
  (n <= MAX_SYRUPS)%nat ->
  spec_price base size_ milk n iced = float_of_int (exact_price base size_ milk n iced).
Proof.
  rewrite elem_of_VALID_BASES, elem_of_VALID_SIZES, elem_of_VALID_MILKS.
  unfold MAX_SYRUPS. intros Hb Hs Hm Hn.
  assert (Hcases : (n = 0 \/ n = 1 \/ n = 2 \/ n = 3 \/ n = 4)%nat) by lia.
  destruct Hb as [->|[->|[->| ->]]], Hs as [->|[->| ->]],
           Hm as [->|[->|[->|[->| ->]]]],
           Hcases as [->|[->|[->|[->| ->]]]], iced;
    vm_compute; reflexivity.
Qed.

(** C1: on every state whose base, size and milk are catalogue values,
    [build] returns an order priced
    [basePriceOf base * sizeMultiplierOf size + milkPriceOf milk
     + count * 40 + (20 if iced else 0)], with the tabulated catalogue;
    an americano, large, no milk, one syrup, not iced costs 390.0. *)
Theorem C1_build_price w base size_ s :
  self_base (self w) = Some base ->
  self_size (self w) = Some size_ ->
  base ∈ VALID_BASES -> size_ ∈ VALID_SIZES -> self_milk (self w) ∈ VALID_MILKS ->
  has_set w s ->
  exists l o w',
    build w = (Ok l, w') /\ order_at l w' = Some o /\
    order_price o =
      Float (spec_price base size_ (self_milk (self w)) (size s) (self_iced (self w))) /\
    (base = "americano" -> size_ = "large" -> self_milk (self w) = "none" ->
     size s = 1%nat -> self_iced (self w) = false ->
     order_price o = Float 390%float).
Proof.
  intros Hb Hs Hvb Hvs Hvm Hset.
  eexists _, _, _. split; [|split; [|split]].
  - eapply build_ok; eauto using BASE_PRICES_lookup, SIZE_MULTIPLIERS_lookup,
      MILK_PRICES_lookup.
  - unfold order_at; cbn. rewrite lookup_insert_eq. reflexivity.
  - cbn. apply price_of_spec; assumption.
  - cbn. intros -> -> -> -> ->. reflexivity.
Qed.

Lemma C1_build_price_witness :
  let w := snd ((set_base "americano";; set_size "large";; add_syrup "caramel") new_builder) in
  exists l o w',
    build w = (Ok l, w') /\ order_at l w' = Some o /\ order_price o = Float 390%float.
Proof.
  intros w.
  destruct (C1_build_price w "americano" "large" {["caramel"]})
    as (l & o & w' & Hbuild & Hat & _ & H390).
  - reflexivity.
  - reflexivity.
  - apply elem_of_VALID_BASES; auto.
  - apply elem_of_VALID_SIZES; auto.
  - apply elem_of_VALID_MILKS; auto.
  - vm_compute. reflexivity.
  - exists l, o, w'. split; [exact Hbuild|]. split; [exact Hat|].
    apply H390; reflexivity.
Defined.

(** ** Description *)

Lemma string_app_assoc (s1 s2 s3 : string) :
  (s1 +:+ s2) +:+ s3 = s1 +:+ (s2 +:+ s3).
Proof.
  induction s1 as [|c s1 IH]; [reflexivity|].
  change (String c ((s1 +:+ s2) +:+ s3) = String c (s1 +:+ (s2 +:+ s3))).
  now rewrite IH.
Qed.

Lemma string_app_empty_r (s : string) : s +:+ "" = s.
Proof.
  induction s as [|c s IH]; [reflexivity|].
  change (String c (s +:+ "") = String c s). now rewrite IH.
Qed.

Lemma sorted_Sorted l : Sorted String.le (sorted l).
Proof. apply (Sorted_merge_sort String.le). Qed.

Lemma sorted_Permutation l : sorted l ≡ₚ l.
Proof. apply merge_sort_Permutation. Qed.

Lemma elem_of_sorted_elements (s : gset string) x :
  x ∈ sorted (elements s) <-> x ∈ s.
Proof. rewrite sorted_Permutation. apply elem_of_elements. Qed.

Lemma NoDup_sorted_elements (s : gset string) : NoDup (sorted (elements s)).
Proof. rewrite sorted_Permutation. apply NoDup_elements. Qed.

Lemma length_sorted_elements (s : gset string) :
  length (sorted (elements s)) = size s.
Proof. now rewrite sorted_Permutation. Qed.

Lemma description_of_spec base size_ milk (s : gset string) sugar iced :
  description_of base size_ milk s sugar iced =
  spec_description base size_ milk (sorted (elements s)) sugar iced.
Proof.
  unfold description_of, spec_description.
  pose proof (length_sorted_elements s) as Hlen.
  destruct (String.eqb_spec milk "none") as [Hm|Hm];
    destruct (decide (milk ≠ "none")) as [Hm'|Hm']; try contradiction;
    destruct (decide (size s ≠ 0%nat)) as [Hn|Hn];
    destruct (sorted (elements s)) as [|x names] eqn:Hnames;
    simpl in Hlen; try lia;
    destruct iced; destruct (0 <? sugar);
    rewrite ?string_app_assoc, ?string_app_empty_r;
    rewrite ?string_app_assoc, ?string_app_empty_r; reflexivity.
Qed.

(** C2: on every state with base and size set, the description of the
    order [build] returns is ["<size> <base>"], then [" with <milk> milk"]
    unless milk is ["none"], then [" + "] and the distinct syrup names in
    lexicographic order joined by [", "] when there is one, then
    [" (iced)"] when iced, then [" <count> tsp sugar"] when sugar is
    positive; the latte of [test_basic_order] is described as
    ["medium latte with oat milk + vanilla (iced) 2 tsp sugar"]. *)
Theorem C2_build_description w base size_ s :
  self_base (self w) = Some base ->
  self_size (self w) = Some size_ ->
  base ∈ VALID_BASES -> size_ ∈ VALID_SIZES -> self_milk (self w) ∈ VALID_MILKS ->
  has_set w s ->
  exists l o w' names,
    build w = (Ok l, w') /\ order_at l w' = Some o /\
    StronglySorted String.le names /\ NoDup names /\ (forall x, x ∈ names <-> x ∈ s) /\
    order_description o =
      spec_description base size_ (self_milk (self w)) names
                       (self_sugar (self w)) (self_iced (self w)) /\
    (base = "latte" -> size_ = "medium" -> self_milk (self w) = "oat" ->
     s = {["vanilla"]} -> self_sugar (self w) = 2 -> self_iced (self w) = true ->
     order_description o = "medium latte with oat milk + vanilla (iced) 2 tsp sugar").
Proof.
  intros Hb Hs Hvb Hvs Hvm Hset.
  eexists _, _, _, (sorted (elements s)). split; [|split; [|split; [|split; [|split; [|split]]]]].
  - eapply build_ok; eauto using BASE_PRICES_lookup, SIZE_MULTIPLIERS_lookup,
      MILK_PRICES_lookup.
  - unfold order_at; cbn. rewrite lookup_insert_eq. reflexivity.
  - apply Sorted_StronglySorted; [apply _|apply sorted_Sorted].
  - apply NoDup_sorted_elements.
  - intros x. apply elem_of_sorted_elements.
  - cbn. apply description_of_spec.
  - cbn. intros -> -> -> -> -> ->. vm_compute. reflexivity.
Qed.

Lemma C2_build_description_witness :
  let w := snd ((set_base "latte";; set_size "medium";; set_milk "oat";;
                 add_syrup "vanilla";; set_sugar 2;; set_iced true) new_builder) in
  exists l o w',
    build w = (Ok l, w') /\ order_at l w' = Some o /\
    order_description o = "medium latte with oat milk + vanilla (iced) 2 tsp sugar".
Proof.
  intros w.
  destruct (C2_build_description w "latte" "medium" {["vanilla"]})
    as (l & o & w' & names & Hbuild & Hat & _ & _ & _ & _ & Hdescr).
  - reflexivity.
  - reflexivity.
  - apply elem_of_VALID_BASES; auto.
  - apply elem_of_VALID_SIZES; auto.
  - apply elem_of_VALID_MILKS; auto.
  - vm_compute. reflexivity.
  - exists l, o, w'. split; [exact Hbuild|]. split; [exact Hat|].
    apply Hdescr; reflexivity.
Defined.

(** ** What each method does to the state *)

Lemma set_base_ok base w :
  base ∈ VALID_BASES ->
  set_base base w =
    (Ok tt, mkWorld (heap w)
              (mkBuilder (Some base) (self_size (self w)) (self_milk (self w))
                 (self_syrups (self w)) (self_sugar (self w)) (self_iced (self w)))).
Proof. intros H. unfold_method. destruct (decide (base ∉ VALID_BASES)); [contradiction|reflexivity]. Qed.

Lemma set_base_raise base w :
  base ∉ VALID_BASES -> exists msg, set_base base w = (Raise (ValueError msg), w).
Proof. intros H. unfold_method. destruct (decide (base ∉ VALID_BASES)); [eauto|contradiction]. Qed.

Lemma set_size_ok size_ w :
  size_ ∈ VALID_SIZES ->
  set_size size_ w =
    (Ok tt, mkWorld (heap w)
              (mkBuilder (self_base (self w)) (Some size_) (self_milk (self w))
                 (self_syrups (self w)) (self_sugar (self w)) (self_iced (self w)))).
Proof. intros H. unfold_method. destruct (decide (size_ ∉ VALID_SIZES)); [contradiction|reflexivity]. Qed.

Lemma set_size_raise size_ w :
  size_ ∉ VALID_SIZES -> exists msg, set_size size_ w = (Raise (ValueError msg), w).
Proof. intros H. unfold_method. destruct (decide (size_ ∉ VALID_SIZES)); [eauto|contradiction]. Qed.

Lemma set_milk_ok milk w :
  milk ∈ VALID_MILKS ->
  set_milk milk w =
    (Ok tt, mkWorld (heap w)
              (mkBuilder (self_base (self w)) (self_size (self w)) milk
                 (self_syrups (self w)) (self_sugar (self w)) (self_iced (self w)))).
Proof. intros H. unfold_method. destruct (decide (milk ∉ VALID_MILKS)); [contradiction|reflexivity]. Qed.

Lemma set_milk_raise milk w :
  milk ∉ VALID_MILKS -> exists msg, set_milk milk w = (Raise (ValueError msg), w).
Proof. intros H. unfold_method. destruct (decide (milk ∉ VALID_MILKS)); [eauto|contradiction]. Qed.

Lemma set_sugar_ok teaspoons w :
  0 <= teaspoons <= 5 ->
  set_sugar teaspoons w =
    (Ok tt, mkWorld (heap w)
              (mkBuilder (self_base (self w)) (self_size (self w)) (self_milk (self w))
                 (self_syrups (self w)) teaspoons (self_iced (self w)))).
Proof.
  intros H. unfold_method.
  destruct (Z.leb_spec 0 teaspoons); [|lia].
  destruct (Z.leb_spec teaspoons 5); [|lia]. reflexivity.
Qed.

Lemma set_sugar_raise teaspoons w :
  teaspoons < 0 \/ 5 < teaspoons ->
  set_sugar teaspoons w =
    (Raise (ValueError "Sugar must be between 0 and 5 teaspoons"), w).
Proof.
  intros H. unfold_method.
  destruct (Z.leb_spec 0 teaspoons); destruct (Z.leb_spec teaspoons 5);
    try lia; reflexivity.
Qed.

Lemma add_syrup_full syrup_name w s :
  has_set w s -> (MAX_SYRUPS <= size s)%nat -> add_syrup syrup_name w = (Ok tt, w).
Proof.
  unfold has_set. intros Hset Hfull. unfold_method. rewrite Hset.
  destruct (decide (MAX_SYRUPS ≤ size s)%nat); [reflexivity|contradiction].
Qed.

Lemma add_syrup_room syrup_name w s :
  has_set w s -> (size s < MAX_SYRUPS)%nat ->
  add_syrup syrup_name w =
    (Ok tt, mkWorld (<[self_syrups (self w) := ObjSet ({[syrup_name]} ∪ s)]> (heap w))
                    (self w)).
Proof.
  unfold has_set. intros Hset Hroom. unfold_method. rewrite Hset.
  destruct (decide (MAX_SYRUPS ≤ size s)%nat); [lia|].
  cbn. rewrite Hset. reflexivity.
Qed.

Lemma clear_extras_ok w s :
  has_set w s ->
  clear_extras w =
    (Ok tt, mkWorld (<[self_syrups (self w) := ObjSet ∅]> (heap w))
              (mkBuilder (self_base (self w)) (self_size (self w)) "none"
                 (self_syrups (self w)) 0 false)).
Proof. unfold has_set. intros Hset. unfold_method. rewrite Hset. reflexivity. Qed.

Lemma reset_ok w :
  reset w =
    (Ok tt, mkWorld (<[fresh (dom (heap w)) := ObjSet ∅]> (heap w))
              (mkBuilder None None "none" (fresh (dom (heap w))) 0 false)).
Proof. reflexivity. Qed.

Lemma set_iced_ok iced w :
  set_iced iced w =
    (Ok tt, mkWorld (heap w)
              (mkBuilder (self_base (self w)) (self_size (self w)) (self_milk (self w))
                 (self_syrups (self w)) (self_sugar (self w)) iced)).
Proof. reflexivity. Qed.

(** [build] either raises and leaves the state as it is, or allocates
    one order and leaves everything else as it is. *)
Lemma build_cases w :
  (exists e, build w = (Raise e, w)) \/
  (exists o, build w =
     (Ok (fresh (dom (heap w))),
      mkWorld (<[fresh (dom (heap w)) := ObjOrder o]> (heap w)) (self w))).
Proof.
  unfold build, mbind, M_bind, get_self, dict_get, load_set, raise, mret, M_ret, alloc.
  destruct (self_base (self w)) as [base|]; [|left; eauto].
  destruct (self_size (self w)) as [size_|]; [|left; eauto].
  destruct (BASE_PRICES !! base); [|left; eauto].
  destruct (SIZE_MULTIPLIERS !! size_); [|left; eauto].
  destruct (MILK_PRICES !! self_milk (self w)); [|left; eauto].
  destruct (heap w !! self_syrups (self w)) as [[s|o]|]; try solve [left; eauto].
  right. eauto.
Qed.

Lemma add_syrup_no_set syrup_name w :
  (forall s, ~ has_set w s) -> add_syrup syrup_name w = (Raise TypeError, w).
Proof.
  unfold has_set. intros Hno. unfold_method.
  destruct (heap w !! self_syrups (self w)) as [[s|o]|]; try reflexivity.
  now destruct (Hno s).
Qed.

Lemma size_add_le (x : string) (s : gset string) :
  (size ({[x]} ∪ s) <= S (size s))%nat.
Proof.
  rewrite size_union_alt, size_singleton.
  apply le_n_S, subseteq_size, subseteq_difference_l. reflexivity.
Qed.

Lemma has_set_cases w : (exists s, has_set w s) \/ (forall s, ~ has_set w s).
Proof.
  unfold has_set. destruct (heap w !! self_syrups (self w)) as [[s|o]|];
    [left; eauto|right; congruence|right; congruence].
Qed.

Lemma exec_effect c w : effect w (snd (exec c w)).
Proof.
  destruct c as [base|size_|milk|x|n|b| | |]; cbn [exec].
  - destruct (decide (base ∈ VALID_BASES)) as [H|H].
    + rewrite set_base_ok by assumption. now apply effect_fields.
    + destruct (set_base_raise base w H) as [msg ->]. now apply effect_fields.
  - destruct (decide (size_ ∈ VALID_SIZES)) as [H|H].
    + rewrite set_size_ok by assumption. now apply effect_fields.
    + destruct (set_size_raise size_ w H) as [msg ->]. now apply effect_fields.
  - destruct (decide (milk ∈ VALID_MILKS)) as [H|H].
    + rewrite set_milk_ok by assumption. now apply effect_fields.
    + destruct (set_milk_raise milk w H) as [msg ->]. now apply effect_fields.
  - destruct (has_set_cases w) as [[s Hs]|Hno].
    + destruct (le_lt_dec MAX_SYRUPS (size s)) as [Hfull|Hroom].
      * rewrite (add_syrup_full x w s) by assumption. now apply effect_fields.
      * rewrite (add_syrup_room x w s) by assumption.
        apply (effect_set _ _ s ({[x]} ∪ s)); try easy.
        cbn. pose proof (size_add_le x s). lia.
    + rewrite add_syrup_no_set by assumption. now apply effect_fields.
  - destruct (Z_le_dec 0 n) as [H0|H0]; [destruct (Z_le_dec n 5) as [H5|H5]|].
    + rewrite set_sugar_ok by lia. now apply effect_fields.
    + rewrite set_sugar_raise by lia. now apply effect_fields.
    + rewrite set_sugar_raise by lia. now apply effect_fields.
  - rewrite set_iced_ok. now apply effect_fields.
  - destruct (has_set_cases w) as [[s Hs]|Hno].
    + rewrite (clear_extras_ok w s) by assumption.
      apply (effect_set _ _ s ∅); try easy.
      rewrite size_empty. unfold MAX_SYRUPS. lia.
    + unfold has_set in Hno. unfold_method.
      destruct (heap w !! self_syrups (self w)) as [[s|o]|];
        [now destruct (Hno s)|now apply effect_fields|now apply effect_fields].
  - rewrite reset_ok. now apply effect_new_set.
  - unfold mbind, M_bind.
    destruct (build_cases w) as [[e ->]|[o ->]].
    + now apply effect_fields.
    + now apply (effect_order _ _ o).
Qed.

Lemma fresh_heap_ne (h : gmap loc obj) l x :
  h !! l = Some x -> l <> fresh (dom h).
Proof.
  intros Hl ->. apply (is_fresh (dom h)). apply elem_of_dom. eauto.
Qed.

Lemma effect_order_kept w w' l o :
  effect w w' ->
  heap w !! l = Some (ObjOrder o) -> heap w' !! l = Some (ObjOrder o).
Proof.
  intros [Hh _|s s' Hs _ Hh _|o' Hh _|Hh _] Hl; rewrite Hh.
  - exact Hl.
  - rewrite lookup_insert_ne; [exact Hl|]. unfold has_set in Hs. congruence.
  - rewrite lookup_insert_ne; [exact Hl|]. apply not_eq_sym. eapply fresh_heap_ne; eauto.
  - rewrite lookup_insert_ne; [exact Hl|]. apply not_eq_sym. eapply fresh_heap_ne; eauto.
Qed.

Lemma effect_bounded w w' :
  effect w w' ->
  (exists s, has_set w s /\ (size s <= MAX_SYRUPS)%nat) ->
  exists s', has_set w' s' /\ (size s' <= MAX_SYRUPS)%nat.
Proof.
  unfold has_set.
  intros [Hh Hl|s0 s' Hs Hle Hh Hl|o' Hh Hself|Hh Hl] (s & Hset & Hsize).
  - exists s. now rewrite Hh, Hl.
  - exists s'. rewrite Hh, Hl, lookup_insert_eq. easy.
  - exists s. rewrite Hh, Hself, lookup_insert_ne; [easy|].
    apply not_eq_sym. eapply fresh_heap_ne; eauto.
  - exists ∅. rewrite Hh, Hl, lookup_insert_eq, size_empty.
    split; [reflexivity|unfold MAX_SYRUPS; lia].
Qed.

Lemma run_cons c cs w : run (c :: cs) w = run cs (snd (exec c w)).
Proof. reflexivity. Qed.

Lemma run_order_kept cs w l o :
  heap w !! l = Some (ObjOrder o) -> heap (run cs w) !! l = Some (ObjOrder o).
Proof.
  revert w. induction cs as [|c cs IH]; intros w Hl; [exact Hl|].
  rewrite run_cons. apply IH. eapply effect_order_kept; eauto using exec_effect.
Qed.

Lemma run_bounded cs w :
  (exists s, has_set w s /\ (size s <= MAX_SYRUPS)%nat) ->
  exists s', has_set (run cs w) s' /\ (size s' <= MAX_SYRUPS)%nat.
Proof.
  revert w. induction cs as [|c cs IH]; intros w Hw; [exact Hw|].
  rewrite run_cons. apply IH. eapply effect_bounded; eauto using exec_effect.
Qed.

(** ** Missing required fields *)

(** C3, as the code has it: when base or size is unset, [build] raises
    [ValueError], returns no order and leaves the state as it is; the
    message names the first missing field only, ["Base must be set"]
    whenever base is unset and ["Size must be set"] when base is set and
    size is unset. *)
Theorem C3_build_missing_field w :
  self_base (self w) = None \/ self_size (self w) = None ->
  exists msg,
    build w = (Raise (ValueError msg), w) /\
    (self_base (self w) = None ->
       msg = "Base must be set" /\ mentions "base" msg = true) /\
    (self_base (self w) <> None ->
       msg = "Size must be set" /\ mentions "size" msg = true).
Proof.
  intros H. unfold build, mbind, M_bind, get_self, raise.
  destruct (self_base (self w)) as [base|].
  - destruct H as [H|H]; [discriminate|]. rewrite H.
    eexists. split; [reflexivity|]. split; [discriminate|]. intros _. now vm_compute.
  - eexists. split; [reflexivity|]. split; [|congruence]. intros _. now vm_compute.
Qed.

Lemma C3_build_missing_field_witness :
  let w := snd ((reset;; set_base "espresso") new_builder) in
  exists msg,
    build w = (Raise (ValueError msg), w) /\ msg = "Size must be set".
Proof.
  intros w.
  destruct (C3_build_missing_field w) as (msg & Hbuild & _ & Hsize).
  - right. reflexivity.
  - exists msg. split; [exact Hbuild|]. apply Hsize. discriminate.
Defined.

(** On a new builder both fields are unset, and the message mentions
    the base only: no message of the call mentions both fields. *)
Lemma C3_counterexample :
  self_base (self new_builder) = None /\
  self_size (self new_builder) = None /\
  build new_builder = (Raise (ValueError "Base must be set"), new_builder) /\
  mentions "size" "Base must be set" = false /\
  ~ (exists msg,
       build new_builder = (Raise (ValueError msg), new_builder) /\
       mentions "base" msg = true /\ mentions "size" msg = true).
Proof.
  split; [reflexivity|]. split; [reflexivity|]. split; [reflexivity|].
  split; [reflexivity|].
  intros (msg & Hbuild & _ & Hsize).
  change (build new_builder)
    with (Raise (A:=loc) (ValueError "Base must be set"), new_builder) in Hbuild.
  injection Hbuild as <-. discriminate Hsize.
Qed.

(** ** Sugar *)

(** C4: [set_sugar count] raises exactly when [count] is outside [0..5],
    with a message that states both bounds, and then changes nothing;
    inside the range it succeeds and stores [count]. *)
Theorem C4_set_sugar w count :
  ((exists e, fst (set_sugar count w) = Raise e) <-> (count < 0 \/ 5 < count)) /\
  (count < 0 \/ 5 < count ->
     set_sugar count w =
       (Raise (ValueError "Sugar must be between 0 and 5 teaspoons"), w)) /\
  (0 <= count <= 5 ->
     exists w', set_sugar count w = (Ok tt, w') /\ self_sugar (self w') = count).
Proof.
  split; [|split].
  - split.
    + intros [e He]. destruct (Z_lt_dec count 0); [lia|].
      destruct (Z_lt_dec 5 count); [lia|].
      rewrite set_sugar_ok in He by lia. discriminate.
    + intros H. rewrite set_sugar_raise by assumption. eauto.
  - apply set_sugar_raise.
  - intros H. rewrite set_sugar_ok by assumption. eauto.
Qed.

Lemma C4_set_sugar_witness :
  set_sugar 10 new_builder =
    (Raise (ValueError "Sugar must be between 0 and 5 teaspoons"), new_builder) /\
  exists w', set_sugar 2 new_builder = (Ok tt, w') /\ self_sugar (self w') = 2.
Proof.
  split.
  - apply (C4_set_sugar new_builder 10). lia.
  - apply (C4_set_sugar new_builder 2). lia.
Defined.

(** ** Syrups *)

(** C5: [add_syrup] never raises; at the cap of four it changes nothing,
    below it the name joins the set; and whatever calls follow, a set
    within the cap stays within the cap. *)
Theorem C5_add_syrup_cap w s syrup_name cs :
  has_set w s ->
  (exists w',
     add_syrup syrup_name w = (Ok tt, w') /\
     ((MAX_SYRUPS <= size s)%nat -> w' = w) /\
     ((size s < MAX_SYRUPS)%nat ->
        has_set w' ({[syrup_name]} ∪ s) /\
        (size ({[syrup_name]} ∪ s) <= MAX_SYRUPS)%nat)) /\
  ((size s <= MAX_SYRUPS)%nat ->
     exists s', has_set (run cs w) s' /\ (size s' <= MAX_SYRUPS)%nat).
Proof.
  intros Hset. split.
  - destruct (le_lt_dec MAX_SYRUPS (size s)) as [Hfull|Hroom].
    + exists w. split; [now apply (add_syrup_full _ _ s)|].
      split; [reflexivity|lia].
    + eexists. split; [now apply (add_syrup_room _ _ s)|].
      split; [lia|]. intros _. split.
      * unfold has_set; cbn. apply lookup_insert_eq.
      * pose proof (size_add_le syrup_name s). lia.
  - intros Hle. apply run_bounded. eauto.
Qed.

Lemma C5_add_syrup_cap_witness :
  let w := snd ((add_syrup "a";; add_syrup "b";; add_syrup "c";; add_syrup "d") new_builder) in
  add_syrup "e" w = (Ok tt, w) /\
  exists s', has_set (run [AddSyrup "e"; AddSyrup "f"; Build; AddSyrup "g"] w) s' /\
             (size s' <= MAX_SYRUPS)%nat.
Proof.
  intros w.
  assert (Hset : has_set w ({["a"]} ∪ ({["b"]} ∪ ({["c"]} ∪ {["d"]}))))
    by (vm_compute; reflexivity).
  destruct (C5_add_syrup_cap w _ "e" [AddSyrup "e"; AddSyrup "f"; Build; AddSyrup "g"] Hset)
    as [(w' & Hadd & Hfull & _) Hrun].
  split.
  - rewrite Hadd. rewrite (Hfull ltac:(vm_compute; reflexivity)). reflexivity.
  - apply Hrun. vm_compute. reflexivity.
Defined.

(** C6: adding a name a second time changes nothing and raises nothing:
    two calls leave the state one call leaves; from the empty set the
    count after two calls is 1. *)
Theorem C6_add_syrup_idempotent w s syrup_name :
  has_set w s ->
  exists w1,
    add_syrup syrup_name w = (Ok tt, w1) /\
    (add_syrup syrup_name;; add_syrup syrup_name) w = (Ok tt, w1) /\
    (s = ∅ -> has_set w1 {[syrup_name]} /\ size ({[syrup_name]} : gset string) = 1%nat).
Proof.
  intros Hset.
  destruct (le_lt_dec MAX_SYRUPS (size s)) as [Hfull|Hroom].
  - exists w. pose proof (add_syrup_full syrup_name w s Hset Hfull) as Hadd.
    split; [exact Hadd|]. split.
    + unfold mbind, M_bind. rewrite Hadd. exact Hadd.
    + intros ->. rewrite size_empty in Hfull. unfold MAX_SYRUPS in Hfull. lia.
  - pose proof (add_syrup_room syrup_name w s Hset Hroom) as Hadd.
    eexists. split; [exact Hadd|]. split.
    + unfold mbind, M_bind. rewrite Hadd.
      set (w1 := mkWorld _ _).
      assert (Hset1 : has_set w1 ({[syrup_name]} ∪ s))
        by (unfold has_set, w1; cbn; apply lookup_insert_eq).
      destruct (le_lt_dec MAX_SYRUPS (size ({[syrup_name]} ∪ s))) as [Hfull1|Hroom1].
      * now apply (add_syrup_full _ _ _ Hset1).
      * rewrite (add_syrup_room _ _ _ Hset1 Hroom1). unfold w1; cbn.
        rewrite insert_insert_eq.
        now rewrite (assoc_L (∪)), (idemp_L (∪)).
    + intros ->. split; [|apply size_singleton].
      unfold has_set; cbn. rewrite lookup_insert_eq.
      now rewrite (right_id_L ∅ (∪)).
Qed.

Lemma C6_add_syrup_idempotent_witness :
  exists w1,
    (add_syrup "chocolate";; add_syrup "chocolate") new_builder = (Ok tt, w1) /\
    has_set w1 {["chocolate"]}.
Proof.
  destruct (C6_add_syrup_idempotent new_builder ∅ "chocolate")
    as (w1 & _ & Htwice & Hone).
  - vm_compute. reflexivity.
  - exists w1. split; [exact Htwice|]. now apply Hone.
Defined.

(** ** Clearing the extras *)

(** C7: [clear_extras] sets milk to ["none"], empties the syrup set, sets
    sugar to 0 and iced to false, and leaves base and size as they were. *)
Theorem C7_clear_extras w s :
  has_set w s ->
  exists w',
    clear_extras w = (Ok tt, w') /\
    self_milk (self w') = "none" /\
    has_set w' ∅ /\
    self_sugar (self w') = 0 /\
    self_iced (self w') = false /\
    self_base (self w') = self_base (self w) /\
    self_size (self w') = self_size (self w).
Proof.
  intros Hset. eexists. split; [now apply (clear_extras_ok w s)|].
  cbn. repeat split. unfold has_set; cbn. apply lookup_insert_eq.
Qed.

Lemma C7_clear_extras_witness :
  let w := snd ((set_base "latte";; set_size "medium";; set_milk "oat";;
                 add_syrup "vanilla";; set_sugar 2;; set_iced true) new_builder) in
  exists w',
    clear_extras w = (Ok tt, w') /\
    self_milk (self w') = "none" /\ has_set w' ∅ /\
    self_sugar (self w') = 0 /\ self_iced (self w') = false /\
    self_base (self w') = Some "latte" /\ self_size (self w') = Some "medium".
Proof.
  intros w.
  destruct (C7_clear_extras w {["vanilla"]})
    as (w' & Hclear & Hmilk & Hset & Hsugar & Hiced & Hbase & Hsize).
  - vm_compute. reflexivity.
  - exists w'. repeat split; assumption.
Defined.

(** ** Orders are snapshots *)

(** C8: a successful [build] leaves the builder's fields and every
    object already in the heap as they were, the order being a new
    object; and whatever calls follow, that order stays as it was
    returned, field by field. *)
Theorem C8_build_independent w l w' cs :
  build w = (Ok l, w') ->
  self w' = self w /\
  heap w !! l = None /\
  (forall l', l' <> l -> heap w' !! l' = heap w !! l') /\
  exists o, order_at l w' = Some o /\ order_at l (run cs w') = Some o.
Proof.
  intros Hbuild.
  destruct (build_cases w) as [[e He]|[o Ho]]; rewrite Hbuild in *; [discriminate|].
  injection Ho as -> ->. cbn.
  split; [reflexivity|]. split.
  - apply not_elem_of_dom. apply is_fresh.
  - split.
    + intros l' Hne. now apply lookup_insert_ne.
    + exists o. unfold order_at at 1; cbn. rewrite lookup_insert_eq.
      split; [reflexivity|]. unfold order_at.
      erewrite run_order_kept; [reflexivity|]. cbn. apply lookup_insert_eq.
Qed.

Lemma C8_build_independent_witness :
  let w := snd ((set_base "latte";; set_size "medium") new_builder) in
  let later := [SetBase "americano"; SetSize "large"; ClearExtras;
                AddSyrup "caramel"; Build; Reset] in
  exists l w' o,
    build w = (Ok l, w') /\ self w' = self w /\
    order_at l w' = Some o /\ order_at l (run later w') = Some o /\
    order_base o = "latte" /\ order_price o = Float 360%float.
Proof.
  intros w later.
  assert (Hbuild : build w = (Ok (fresh (dom (heap w))), snd (build w)))
    by (vm_compute; reflexivity).
  destruct (C8_build_independent w _ _ later Hbuild)
    as (Hself & _ & _ & o & Hat & Hlater).
  exists (fresh (dom (heap w))), (snd (build w)), o.
  split; [exact Hbuild|]. split; [exact Hself|].
  split; [exact Hat|]. split; [exact Hlater|].
  assert (Ho : order_at (fresh (dom (heap w))) (snd (build w)) =
               Some (mkOrder "latte" "medium" "none" [] 0 false (Float 360%float)
                             "medium latte"))
    by (vm_compute; reflexivity).
  rewrite Ho in Hat. injection Hat as <-. split; reflexivity.
Defined.

(** ** Rejected arguments *)

(** C9: a validating setter raises exactly on an argument outside its
    catalogue or range, the error is a [ValueError] raised by that very
    call, and the whole state is then what it was before the call. *)
Theorem C9_rejection_atomic c w :
  is_validating_setter c = true ->
  ((exists e, fst (exec c w) = Raise e) <-> invalid_argument c) /\
  (forall e w', exec c w = (Raise e, w') ->
     w' = w /\ exists msg, e = ValueError msg).
Proof.
  destruct c as [base|size_|milk|x|n|b| | |]; try discriminate; intros _;
    cbn [exec invalid_argument].
  - destruct (decide (base ∈ VALID_BASES)) as [H|H].
    + rewrite set_base_ok by assumption. cbn [fst].
      split; [split; [intros [e ?]; discriminate|contradiction]|].
      intros e w' ?; discriminate.
    + destruct (set_base_raise base w H) as [msg ->]. cbn [fst].
      split; [split; eauto|]. intros e w' [= <- <-]. eauto.
  - destruct (decide (size_ ∈ VALID_SIZES)) as [H|H].
    + rewrite set_size_ok by assumption. cbn [fst].
      split; [split; [intros [e ?]; discriminate|contradiction]|].
      intros e w' ?; discriminate.
    + destruct (set_size_raise size_ w H) as [msg ->]. cbn [fst].
      split; [split; eauto|]. intros e w' [= <- <-]. eauto.
  - destruct (decide (milk ∈ VALID_MILKS)) as [H|H].
    + rewrite set_milk_ok by assumption. cbn [fst].
      split; [split; [intros [e ?]; discriminate|contradiction]|].
      intros e w' ?; discriminate.
    + destruct (set_milk_raise milk w H) as [msg ->]. cbn [fst].
      split; [split; eauto|]. intros e w' [= <- <-]. eauto.
  - destruct (decide (0 <= n <= 5)) as [H|H].
    + rewrite set_sugar_ok by assumption. cbn [fst].
      split; [split; [intros [e ?]; discriminate|lia]|].
      intros e w' ?; discriminate.
    + rewrite set_sugar_raise by lia. cbn [fst].
      split; [split; [lia|eauto]|]. intros e w' [= <- <-]. eauto.
Qed.

Lemma C9_rejection_atomic_witness :
  let w := snd ((set_base "latte";; set_size "medium";; set_milk "oat";;
                 add_syrup "vanilla";; set_sugar 2;; set_iced true) new_builder) in
  (exists e, set_base "mocha" w = (Raise e, w)) /\
  (exists e, set_size "huge" w = (Raise e, w)) /\
  (exists e, set_milk "goat" w = (Raise e, w)) /\
  (exists e, set_sugar 10 w = (Raise e, w)).
Proof.
  intros w.
  assert (Hshape : forall c, is_validating_setter c = true -> invalid_argument c ->
            exists e, exec c w = (Raise e, w)).
  { intros c Hc Hinv.
    destruct (C9_rejection_atomic c w Hc) as [Hiff Hatomic].
    destruct (proj2 Hiff Hinv) as [e He].
    destruct (exec c w) as [r w'] eqn:Hexec. cbn in He. subst r.
    destruct (Hatomic e w' eq_refl) as [-> _]. eauto. }
  split; [|split; [|split]].
  - apply (Hshape (SetBase "mocha")); [reflexivity|].
    cbn. rewrite elem_of_VALID_BASES. intros [?|[?|[?|?]]]; discriminate.
  - apply (Hshape (SetSize "huge")); [reflexivity|].
    cbn. rewrite elem_of_VALID_SIZES. intros [?|[?|?]]; discriminate.
  - apply (Hshape (SetMilk "goat")); [reflexivity|].
    cbn. rewrite elem_of_VALID_MILKS. intros [?|[?|[?|[?|?]]]]; discriminate.
  - apply (Hshape (SetSugar 10)); [reflexivity|]. cbn. lia.
Defined.

(** ** Syrup names are not validated *)

Lemma occurs_in_app_l x a b : occurs_in x a -> occurs_in x (a +:+ b).
Proof.
  intros (pre & post & ->). exists pre, (post +:+ b).
  now rewrite !string_app_assoc.
Qed.

Lemma occurs_in_app_r x a b : occurs_in x b -> occurs_in x (a +:+ b).
Proof.
  intros (pre & post & ->). exists (a +:+ pre), post.
  now rewrite !string_app_assoc.
Qed.

Lemma occurs_in_refl x : occurs_in x x.
Proof. exists "", "". now rewrite string_app_empty_r. Qed.

Lemma occurs_in_join sep x (l : list string) : x ∈ l -> occurs_in x (join sep l).
Proof.
  induction l as [|y l IH]; intros Hx.
  - now apply elem_of_nil in Hx.
  - apply elem_of_cons in Hx. destruct l as [|z l].
    + destruct Hx as [->|Hx]; [apply occurs_in_refl|now apply elem_of_nil in Hx].
    + change (join sep (y :: z :: l)) with (y +:+ sep +:+ join sep (z :: l)).
      destruct Hx as [->|Hx].
      * apply occurs_in_app_l, occurs_in_refl.
      * apply occurs_in_app_r, occurs_in_app_r, IH, Hx.
Qed.

Lemma occurs_in_spec_description base size_ milk names sugar iced x :
  x ∈ names -> occurs_in x (spec_description base size_ milk names sugar iced).
Proof.
  intros Hx. unfold spec_description.
  apply occurs_in_app_r, occurs_in_app_r, occurs_in_app_l.
  destruct names as [|y names]; [now apply elem_of_nil in Hx|].
  apply occurs_in_app_r, occurs_in_join, Hx.
Qed.

(** C10: [add_syrup] checks the name against no catalogue.  Whatever the
    string, the call succeeds; below the cap it stores the name, and
    [build] then succeeds too, lists the name among the order's syrups,
    shows it in the description and counts it at the flat rate of 40. *)
Theorem C10_add_syrup_unvalidated w base size_ s syrup_name :
  self_base (self w) = Some base ->
  self_size (self w) = Some size_ ->
  base ∈ VALID_BASES -> size_ ∈ VALID_SIZES -> self_milk (self w) ∈ VALID_MILKS ->
  has_set w s ->
  exists w1,
    add_syrup syrup_name w = (Ok tt, w1) /\
    ((size s < MAX_SYRUPS)%nat ->
     has_set w1 ({[syrup_name]} ∪ s) /\
     (syrup_name ∉ s -> size ({[syrup_name]} ∪ s) = S (size s)) /\
     exists l o w2,
       build w1 = (Ok l, w2) /\ order_at l w2 = Some o /\
       syrup_name ∈ order_syrups o /\
       occurs_in syrup_name (order_description o) /\
       order_price o =
         Float (spec_price base size_ (self_milk (self w))
                           (size ({[syrup_name]} ∪ s)) (self_iced (self w)))).
Proof.
  intros Hb Hs Hvb Hvs Hvm Hset.
  destruct (le_lt_dec MAX_SYRUPS (size s)) as [Hfull|Hroom].
  { exists w. split; [now apply (add_syrup_full _ _ s)|]. lia. }
  pose proof (add_syrup_room syrup_name w s Hset Hroom) as Hadd.
  set (w1 := mkWorld (<[self_syrups (self w) := ObjSet ({[syrup_name]} ∪ s)]> (heap w))
                     (self w)) in *.
  assert (Hset1 : has_set w1 ({[syrup_name]} ∪ s))
    by (unfold has_set, w1; cbn; apply lookup_insert_eq).
  exists w1. split; [exact Hadd|]. intros _.
  split; [exact Hset1|]. split.
  { intros Hnew. rewrite size_union by now apply disjoint_singleton_l.
    now rewrite size_singleton. }
  eexists _, _, _. split.
  { eapply (build_ok w1 base size_); eauto using BASE_PRICES_lookup,
      SIZE_MULTIPLIERS_lookup, MILK_PRICES_lookup. }
  split. { unfold order_at; cbn. rewrite lookup_insert_eq. reflexivity. }
  cbn. split; [|split].
  - apply elem_of_sorted_elements, elem_of_union_l, elem_of_singleton. reflexivity.
  - rewrite description_of_spec. apply occurs_in_spec_description.
    apply elem_of_sorted_elements, elem_of_union_l, elem_of_singleton. reflexivity.
  - apply price_of_spec; assumption.
Qed.

Lemma C10_add_syrup_unvalidated_witness :
  let w := snd ((set_base "espresso";; set_size "small") new_builder) in
  exists w1 l o w2,
    add_syrup "" w = (Ok tt, w1) /\ build w1 = (Ok l, w2) /\
    order_at l w2 = Some o /\ "" ∈ order_syrups o /\
    order_price o = Float 240%float.
Proof.
  intros w.
  destruct (C10_add_syrup_unvalidated w "espresso" "small" ∅ "")
    as (w1 & Hadd & Hroom).
  - reflexivity.
  - reflexivity.
  - apply elem_of_VALID_BASES; auto.
  - apply elem_of_VALID_SIZES; auto.
  - apply elem_of_VALID_MILKS; auto.
  - vm_compute. reflexivity.
  - destruct Hroom as (_ & _ & l & o & w2 & Hbuild & Hat & Hin & _ & Hprice).
    { vm_compute. lia. }
    exists w1, l, o, w2. repeat (split; [assumption|]). exact Hprice.
Defined.

(** ** The invariant of the data model

    Each field of a builder is valid on its own in every state a client
    can reach, so the conditions under which the statements above are
    given hold of every such state. *)

Lemma exec_self c w :
  valid_state w ->
  let b := self w in let b' := self (snd (exec c w)) in
  (self_base b' = self_base b \/ self_base b' = None \/
     exists x, self_base b' = Some x /\ x ∈ VALID_BASES) /\
  (self_size b' = self_size b \/ self_size b' = None \/
     exists x, self_size b' = Some x /\ x ∈ VALID_SIZES) /\
  (self_milk b' = self_milk b \/ self_milk b' ∈ VALID_MILKS) /\
  (self_sugar b' = self_sugar b \/ 0 <= self_sugar b' <= 5).
Proof.
  intros (_ & _ & Hm & (s & Hset & Hle) & _).
  assert (Hnone : "none" ∈ VALID_MILKS) by (apply elem_of_VALID_MILKS; auto).
  destruct c as [base|size_|milk|x|n|b| | |]; cbn [exec]; cbn zeta.
  - destruct (decide (base ∈ VALID_BASES)) as [H|H].
    + rewrite set_base_ok by assumption. cbn. repeat split; eauto 10.
    + destruct (set_base_raise base w H) as [msg ->]. cbn. repeat split; eauto 10.
  - destruct (decide (size_ ∈ VALID_SIZES)) as [H|H].
    + rewrite set_size_ok by assumption. cbn. repeat split; eauto 10.
    + destruct (set_size_raise size_ w H) as [msg ->]. cbn. repeat split; eauto 10.
  - destruct (decide (milk ∈ VALID_MILKS)) as [H|H].
    + rewrite set_milk_ok by assumption. cbn. repeat split; eauto 10.
    + destruct (set_milk_raise milk w H) as [msg ->]. cbn. repeat split; eauto 10.
  - destruct (le_lt_dec MAX_SYRUPS (size s)) as [Hfull|Hroom].
    + rewrite (add_syrup_full x w s) by assumption. cbn. repeat split; eauto 10.
    + rewrite (add_syrup_room x w s) by assumption. cbn. repeat split; eauto 10.
  - destruct (decide (0 <= n <= 5)) as [H|H].
    + rewrite set_sugar_ok by assumption. cbn. repeat split; eauto 10.
    + rewrite set_sugar_raise by lia. cbn. repeat split; eauto 10.
  - rewrite set_iced_ok. cbn. repeat split; eauto 10.
  - rewrite (clear_extras_ok w s) by assumption. cbn.
    repeat split; eauto 10; right; lia.
  - rewrite reset_ok. cbn. repeat split; eauto 10; right; lia.
  - unfold mbind, M_bind.
    destruct (build_cases w) as [[e ->]|[o ->]]; cbn; repeat split; eauto 10.
Qed.

Lemma exec_valid_state c w : valid_state w -> valid_state (snd (exec c w)).
Proof.
  intros Hw. pose proof (exec_self c w Hw) as (Hb' & Hs' & Hm' & Hg').
  destruct Hw as (Hb & Hs & Hm & Hset & Hsugar). cbn zeta in *.
  repeat split.
  - intros base Hbase. destruct Hb' as [Heq|[Hnone|(x & Hx & Hv)]].
    + apply Hb. congruence.
    + congruence.
    + congruence.
  - intros size_ Hsize. destruct Hs' as [Heq|[Hnone|(x & Hx & Hv)]].
    + apply Hs. congruence.
    + congruence.
    + congruence.
  - destruct Hm' as [->|?]; assumption.
  - eapply effect_bounded; eauto using exec_effect.
  - destruct Hg' as [->|?]; lia.
  - destruct Hg' as [->|?]; lia.
Qed.

Lemma new_builder_valid : valid_state new_builder.
Proof.
  split; [|split; [|split; [|split]]].
  - discriminate.
  - discriminate.
  - apply elem_of_VALID_MILKS. auto.
  - exists ∅. split; [vm_compute; reflexivity|].
    rewrite size_empty. unfold MAX_SYRUPS. lia.
  - change (0 <= 0 <= 5). lia.
Qed.

Lemma run_valid_state cs w : valid_state w -> valid_state (run cs w).
Proof.
  revert w. induction cs as [|c cs IH]; intros w Hw; [exact Hw|].
  rewrite run_cons. apply IH, exec_valid_state, Hw.
Qed.

(** Every state a client reaches from a new builder is valid. *)
Corollary reachable_valid cs : valid_state (run cs new_builder).
Proof. apply run_valid_state, new_builder_valid. Qed.

(** ** The scenarios of [tests.py], evaluated *)

Example test_basic_order :
  exists l w,
    scenario_basic_order new_builder = (Ok l, w) /\
    order_at l w =
      Some (mkOrder "latte" "medium" "oat" ["vanilla"] 2 true (Float 480%float)
                    "medium latte with oat milk + vanilla (iced) 2 tsp sugar").
Proof. eexists _, _. split; vm_compute; reflexivity. Qed.

Example test_builder_reuse :
  exists order1 order2 w,
    scenario_builder_reuse new_builder = (Ok (order1, order2), w) /\
    order_at order1 w =
      Some (mkOrder "latte" "medium" "none" [] 0 false (Float 360%float)
                    "medium latte") /\
    order_at order2 w =
      Some (mkOrder "americano" "large" "none" ["caramel"] 0 false (Float 390%float)
                    "large americano + caramel").
Proof. eexists _, _, _. split; [|split]; vm_compute; reflexivity. Qed.

Example test_logic_checks :
  exists order_syrup order_no_ice order_with_ice w o1 o2 o3 p2 p3,
    scenario_logic_checks new_builder =
      (Ok (order_syrup, order_no_ice, order_with_ice), w) /\
    order_at order_syrup w = Some o1 /\
    order_at order_no_ice w = Some o2 /\
    order_at order_with_ice w = Some o3 /\
    order_price o1 = Float 360%float /\ length (order_syrups o1) = 1%nat /\
    order_price o2 = Float p2 /\ order_price o3 = Float p3 /\
    p3 = PrimFloat.add p2 (float_of_int ICED_PRICE).
Proof.
  eexists _, _, _, _, _, _, _, _, _.
  split; [|split; [|split; [|split; [|split; [|split; [|split; [|split]]]]]]];
    vm_compute; reflexivity.
Qed.

(** ** When [build] succeeds, and what it raises when it does not *)

Lemma build_inv w l w' :
  build w = (Ok l, w') ->
  exists base size_ bp m mp s,
    self_base (self w) = Some base /\ self_size (self w) = Some size_ /\
    BASE_PRICES !! base = Some bp /\ SIZE_MULTIPLIERS !! size_ = Some m /\
    MILK_PRICES !! self_milk (self w) = Some mp /\ has_set w s /\
    l = fresh (dom (heap w)) /\
    w' = mkWorld (<[l := ObjOrder (order_of (self w) base size_ bp m mp s)]> (heap w))
                 (self w).
Proof.
  unfold has_set, build, mbind, M_bind, get_self, dict_get, load_set, raise, mret,
    M_ret, alloc.
  destruct (self_base (self w)) as [base|]; [|discriminate].
  destruct (self_size (self w)) as [size_|]; [|discriminate].
  destruct (BASE_PRICES !! base) as [bp|] eqn:Hbp; [|discriminate].
  destruct (SIZE_MULTIPLIERS !! size_) as [m|] eqn:Hm; [|discriminate].
  destruct (MILK_PRICES !! self_milk (self w)) as [mp|] eqn:Hmp; [|discriminate].
  destruct (heap w !! self_syrups (self w)) as [[s|o]|] eqn:Hset; try discriminate.
  intros [= <- <-]. exists base, size_, bp, m, mp, s. repeat split; assumption.
Qed.

Lemma lookup_VALID_BASES base bp : BASE_PRICES !! base = Some bp -> base ∈ VALID_BASES.
Proof. intros H. apply elem_of_dom. eauto. Qed.

Lemma lookup_VALID_SIZES size_ m :
  SIZE_MULTIPLIERS !! size_ = Some m -> size_ ∈ VALID_SIZES.
Proof. intros H. apply elem_of_dom. eauto. Qed.

Lemma lookup_VALID_MILKS milk mp : MILK_PRICES !! milk = Some mp -> milk ∈ VALID_MILKS.
Proof. intros H. apply elem_of_dom. eauto. Qed.



(** X2: a [build] that raises leaves the world exactly as it was, and
    the exception is decided in the order of the body: a missing base,
    a missing size, then [KeyError] for a base, a size or a milk that is
    not a key of its price table. *)
Theorem X2_build_failure w e w' :
  build w = (Raise e, w') ->
  w' = w /\
  (self_base (self w) = None -> e = ValueError "Base must be set") /\
  (forall base, self_base (self w) = Some base ->
     (self_size (self w) = None -> e = ValueError "Size must be set") /\
     (forall size_, self_size (self w) = Some size_ ->
        (base ∉ VALID_BASES -> e = KeyError base) /\
        (base ∈ VALID_BASES -> size_ ∉ VALID_SIZES -> e = KeyError size_) /\
        (base ∈ VALID_BASES -> size_ ∈ VALID_SIZES ->
         self_milk (self w) ∉ VALID_MILKS -> e = KeyError (self_milk (self w))))).
Proof.
  unfold build, mbind, M_bind, get_self, dict_get, load_set, raise, mret, M_ret, alloc.
  destruct (self_base (self w)) as [base|].
  2:{ intros [= <- <-]. split; [reflexivity|]. split; [reflexivity|]. discriminate. }
  destruct (self_size (self w)) as [size_|].
  2:{ intros [= <- <-]. split; [reflexivity|]. split; [discriminate|].
      intros ? [= <-]. split; [reflexivity|]. discriminate. }
  destruct (BASE_PRICES !! base) as [bp|] eqn:Hbp.
  2:{ intros [= <- <-]. split; [reflexivity|]. split; [discriminate|].
      intros ? [= <-]. split; [discriminate|]. intros ? [= <-].
      apply not_elem_of_dom in Hbp. split; [reflexivity|]. split; contradiction. }
  apply lookup_VALID_BASES in Hbp.
  destruct (SIZE_MULTIPLIERS !! size_) as [m|] eqn:Hm.
  2:{ intros [= <- <-]. split; [reflexivity|]. split; [discriminate|].
      intros ? [= <-]. split; [discriminate|]. intros ? [= <-].
      apply not_elem_of_dom in Hm. split; [contradiction|].
      split; [reflexivity|contradiction]. }
  apply lookup_VALID_SIZES in Hm.
  destruct (MILK_PRICES !! self_milk (self w)) as [mp|] eqn:Hmp.
  2:{ intros [= <- <-]. split; [reflexivity|]. split; [discriminate|].
      intros ? [= <-]. split; [discriminate|]. intros ? [= <-].
      split; [contradiction|]. split; [contradiction|]. reflexivity. }
  apply lookup_VALID_MILKS in Hmp.
  destruct (heap w !! self_syrups (self w)) as [[s|o]|]; try discriminate;
    intros [= <- <-]; (split; [reflexivity|]); (split; [discriminate|]);
    intros ? [= <-]; (split; [discriminate|]); intros ? [= <-];
    repeat split; contradiction.
Qed.

Lemma X2_build_failure_witness :
  let w := mkWorld (heap new_builder)
             (mkBuilder (Some "mocha") (Some "small") "none"
                        (self_syrups (self new_builder)) 0 false) in
  build w = (Raise (KeyError "mocha"), w).
Proof.
  intros w.
  destruct (build w) as [[l|e] w'] eqn:Hbuild.
  - exfalso. vm_compute in Hbuild. discriminate Hbuild.
  - destruct (X2_build_failure w e w' Hbuild) as (-> & _ & Hbase).
    destruct (Hbase "mocha" eq_refl) as (_ & Hsize).
    destruct (Hsize "small" eq_refl) as (Hkey & _).
    rewrite Hkey; [reflexivity|].
    rewrite elem_of_VALID_BASES. intros [?|[?|[?|?]]]; discriminate.
Defined.

(** ** What an order holds *)

(** X3: the order [build] returns copies base, size, milk, sugar and iced
    from the builder, and its syrups are the elements of the builder's
    set, each once, in ascending order. *)
Theorem X3_order_snapshot w l w' :
  build w = (Ok l, w') ->
  exists o s,
    order_at l w' = Some o /\ has_set w s /\
    self_base (self w) = Some (order_base o) /\
    self_size (self w) = Some (order_size o) /\
    order_milk o = self_milk (self w) /\
    order_sugar o = self_sugar (self w) /\
    order_iced o = self_iced (self w) /\
    length (order_syrups o) = size s /\
    (forall x, x ∈ order_syrups o <-> x ∈ s) /\
    NoDup (order_syrups o) /\ StronglySorted String.le (order_syrups o).
Proof.
  intros Hbuild.
  destruct (build_inv w l w' Hbuild)
    as (base & size_ & bp & m & mp & s & Hb & Hs & _ & _ & _ & Hset & -> & ->).
  eexists _, s. split.
  { unfold order_at; cbn. rewrite lookup_insert_eq. reflexivity. }
  cbn. repeat split; try assumption.
  - apply length_sorted_elements.
  - apply elem_of_sorted_elements.
  - apply elem_of_sorted_elements.
  - apply NoDup_sorted_elements.
  - apply Sorted_StronglySorted; [apply _|apply sorted_Sorted].
Qed.

Lemma X3_order_snapshot_witness :
  exists l w' o,
    build (snd ((set_base "latte";; set_size "large";; add_syrup "vanilla";;
                 add_syrup "caramel";; set_sugar 3) new_builder)) = (Ok l, w') /\
    order_at l w' = Some o /\
    order_base o = "latte" /\ order_sugar o = 3 /\ length (order_syrups o) = 2%nat.
Proof.
  set (w := snd ((set_base "latte";; set_size "large";; add_syrup "vanilla";;
                  add_syrup "caramel";; set_sugar 3) new_builder)).
  assert (Hbuild : build w = (Ok (fresh (dom (heap w))), snd (build w)))
    by (vm_compute; reflexivity).
  destruct (X3_order_snapshot w _ _ Hbuild)
    as (o & s & Hat & Hset & Hb & _ & _ & Hsugar & _ & Hlen & _).
  exists (fresh (dom (heap w))), (snd (build w)), o.
  split; [exact Hbuild|]. split; [exact Hat|].
  assert (Hs : has_set w ({["vanilla"]} ∪ {["caramel"]})) by (vm_compute; reflexivity).
  unfold has_set in Hset, Hs. rewrite Hs in Hset. injection Hset as <-.
  split; [|split].
  - change (self_base (self w)) with (Some "latte") in Hb. now injection Hb.
  - exact Hsugar.
  - rewrite Hlen. vm_compute. reflexivity.
Defined.

(** X4: [build] can be repeated: a second [build] right after a
    successful one succeeds too and returns a new order object, distinct
    from the first and equal to it field by field. *)
Theorem X4_build_again w l1 w1 :
  build w = (Ok l1, w1) ->
  exists l2 w2 o,
    build w1 = (Ok l2, w2) /\ l2 <> l1 /\
    order_at l1 w2 = Some o /\ order_at l2 w2 = Some o.
Proof.
  intros Hbuild.
  destruct (build_inv w l1 w1 Hbuild)
    as (base & size_ & bp & m & mp & s & Hb & Hs & Hbp & Hm & Hmp & Hset & -> & ->).
  set (l1 := fresh (dom (heap w))).
  set (o := order_of (self w) base size_ bp m mp s).
  set (w1 := mkWorld (<[l1 := ObjOrder o]> (heap w)) (self w)).
  assert (Hne : self_syrups (self w) <> l1)
    by (eapply fresh_heap_ne; exact Hset).
  assert (Hset1 : has_set w1 s).
  { unfold has_set, w1; cbn. rewrite lookup_insert_ne by congruence. exact Hset. }
  pose proof (build_ok w1 base size_ bp m mp s Hb Hs Hbp Hm Hmp Hset1) as Hbuild1.
  set (l2 := fresh (dom (heap w1))) in *.
  assert (Hl : l1 <> l2).
  { apply (fresh_heap_ne (heap w1) l1 (ObjOrder o)).
    unfold w1; cbn. apply lookup_insert_eq. }
  eexists l2, _, o. split; [exact Hbuild1|]. split; [congruence|].
  unfold order_at; cbn. split.
  - rewrite lookup_insert_ne by congruence. rewrite lookup_insert_eq. reflexivity.
  - rewrite lookup_insert_eq. reflexivity.
Qed.

Lemma X4_build_again_witness :
  let w := snd ((set_base "latte";; set_size "medium") new_builder) in
  exists l1 l2 w2 o,
    (build;; build) w = (Ok l2, w2) /\ l2 <> l1 /\
    order_at l1 w2 = Some o /\ order_at l2 w2 = Some o.
Proof.
  intros w.
  assert (Hbuild : build w = (Ok (fresh (dom (heap w))), snd (build w)))
    by (vm_compute; reflexivity).
  destruct (X4_build_again w _ _ Hbuild) as (l2 & w2 & o & Hbuild2 & Hne & H1 & H2).
  exists (fresh (dom (heap w))), l2, w2, o.
  split; [|auto].
  unfold mbind, M_bind. rewrite Hbuild. exact Hbuild2.
Defined.

Lemma price_of_float base size_ milk n :
  base ∈ VALID_BASES -> size_ ∈ VALID_SIZES -> milk ∈ VALID_MILKS ->
  exists p,
    price_of (Int (basePriceOf base)) (Float (sizeMultiplierOf size_))
             (if String.eqb milk "none" then Float 0%float else Int (milkPriceOf milk))
             n false = Float p /\
    price_of (Int (basePriceOf base)) (Float (sizeMultiplierOf size_))
             (if String.eqb milk "none" then Float 0%float else Int (milkPriceOf milk))
             n true = Float (PrimFloat.add p (float_of_int ICED_PRICE)).
Proof.
  intros _ _ _. unfold price_of.
  destruct (String.eqb milk "none"); cbn; eauto.
Qed.

(** X5: built from the same selections, the iced drink costs the not iced
    one plus [ICED_PRICE], in the floating-point arithmetic of [build]. *)
Theorem X5_iced_surcharge w base size_ s :
  self_base (self w) = Some base ->
  self_size (self w) = Some size_ ->
  base ∈ VALID_BASES -> size_ ∈ VALID_SIZES -> self_milk (self w) ∈ VALID_MILKS ->
  has_set w s ->
  exists order_no_ice order_with_ice w' o0 o1 p,
    (l0 ← (set_iced false;; build); l1 ← (set_iced true;; build); mret (l0, l1)) w
      = (Ok (order_no_ice, order_with_ice), w') /\
    order_at order_no_ice w' = Some o0 /\ order_at order_with_ice w' = Some o1 /\
    order_price o0 = Float p /\
    order_price o1 = Float (PrimFloat.add p (float_of_int ICED_PRICE)).
Proof.
  intros Hb Hs Hvb Hvs Hvm Hset.
  pose proof (BASE_PRICES_lookup base Hvb) as Hbp.
  pose proof (SIZE_MULTIPLIERS_lookup size_ Hvs) as Hm.
  pose proof (MILK_PRICES_lookup _ Hvm) as Hmp.
  destruct (price_of_float base size_ (self_milk (self w)) (size s) Hvb Hvs Hvm)
    as (p & Hp0 & Hp1).
  pose proof (set_iced_ok false w) as Hiced0.
  set (wa := mkWorld (heap w) _) in Hiced0.
  assert (Hseta : has_set wa s) by exact Hset.
  pose proof (build_ok wa base size_ _ _ _ s Hb Hs Hbp Hm Hmp Hseta) as Hbuild0.
  set (l0 := fresh (dom (heap wa))) in *.
  set (o0 := order_of (self wa) base size_ _ _ _ s) in *.
  set (wb := mkWorld (<[l0 := ObjOrder o0]> (heap wa)) (self wa)) in *.
  pose proof (set_iced_ok true wb) as Hiced1.
  set (wc := mkWorld (heap wb) _) in Hiced1.
  assert (Hne0 : self_syrups (self w) <> l0) by (eapply fresh_heap_ne; exact Hset).
  assert (Hsetc : has_set wc s).
  { unfold has_set, wc, wb; cbn. rewrite lookup_insert_ne by congruence. exact Hset. }
  pose proof (build_ok wc base size_ _ _ _ s Hb Hs Hbp Hm Hmp Hsetc) as Hbuild1.
  set (l1 := fresh (dom (heap wc))) in *.
  set (o1 := order_of (self wc) base size_ _ _ _ s) in *.
  assert (Hl : l0 <> l1).
  { apply (fresh_heap_ne (heap wc) l0 (ObjOrder o0)).
    unfold wc, wb; cbn. apply lookup_insert_eq. }
  eexists l0, l1, _, o0, o1, p. split; [|split; [|split; [|split]]].
  - unfold mbind, M_bind. rewrite Hiced0, Hbuild0, Hiced1, Hbuild1. reflexivity.
  - unfold order_at; cbn. rewrite lookup_insert_ne by congruence.
    rewrite lookup_insert_eq. reflexivity.
  - unfold order_at; cbn. rewrite lookup_insert_eq. reflexivity.
  - exact Hp0.
  - exact Hp1.
Qed.

Lemma X5_iced_surcharge_witness :
  let w := snd ((reset;; set_base "cappuccino";; set_size "small";;
                 add_syrup "chocolate") new_builder) in
  exists order_no_ice order_with_ice w' o0 o1,
    (l0 ← (set_iced false;; build); l1 ← (set_iced true;; build); mret (l0, l1)) w
      = (Ok (order_no_ice, order_with_ice), w') /\
    order_at order_no_ice w' = Some o0 /\ order_at order_with_ice w' = Some o1 /\
    order_price o0 = Float 360%float /\ order_price o1 = Float 380%float.
Proof.
  intros w.
  destruct (X5_iced_surcharge w "cappuccino" "small" {["chocolate"]})
    as (l0 & l1 & w' & o0 & o1 & p & Hrun & Hat0 & Hat1 & Hp0 & Hp1).
  - reflexivity.
  - reflexivity.
  - apply elem_of_VALID_BASES; auto.
  - apply elem_of_VALID_SIZES; auto.
  - apply elem_of_VALID_MILKS; auto.
  - vm_compute. reflexivity.
  - exists l0, l1, w', o0, o1.
    split; [exact Hrun|]. split; [exact Hat0|]. split; [exact Hat1|].
    assert (Hall : (l0 ← (set_iced false;; build); l1 ← (set_iced true;; build);
                    mret (l0, l1)) w =
                   (Ok (3%positive, 4%positive), w') /\
                   order_price <$> order_at 3%positive w' = Some (Float 360%float)).
    { rewrite Hrun in *. clear Hp0 Hp1 Hat0 Hat1.
      revert Hrun. vm_compute. intros [= <- <- <-]. split; reflexivity. }
    destruct Hall as [Hall H360]. rewrite Hrun in Hall. injection Hall as -> ->.
    rewrite Hat0 in H360. cbn in H360. injection H360 as H360.
    rewrite H360 in Hp0. injection Hp0 as <-.
    split; [exact H360|]. rewrite Hp1. reflexivity.
Defined.

Lemma exact_price_bounds base size_ milk n iced :
  base ∈ VALID_BASES -> size_ ∈ VALID_SIZES -> milk ∈ VALID_MILKS ->
  (n <= MAX_SYRUPS)%nat ->
  200 <= exact_price base size_ milk n iced <= 688.
Proof.
  rewrite elem_of_VALID_BASES, elem_of_VALID_SIZES, elem_of_VALID_MILKS.
  unfold MAX_SYRUPS. intros Hb Hs Hm Hn.
  assert (Hcases : (n = 0 \/ n = 1 \/ n = 2 \/ n = 3 \/ n = 4)%nat) by lia.
  destruct Hb as [->|[->|[->| ->]]], Hs as [->|[->| ->]],
           Hm as [->|[->|[->|[->| ->]]]],
           Hcases as [->|[->|[->|[->| ->]]]], iced;
    vm_compute; split; discriminate.
Qed.

(** X6: an order built from a valid state is valid itself: base, size
    and milk are catalogue names, at most four syrups, sugar within
    [0..5]; and its price is a whole number between 200 and 688, the
    exact sum of the catalogue prices, with no rounding. *)
Theorem X6_order_valid w l w' :
  valid_state w ->
  build w = (Ok l, w') ->
  exists o z,
    order_at l w' = Some o /\
    order_base o ∈ VALID_BASES /\ order_size o ∈ VALID_SIZES /\
    order_milk o ∈ VALID_MILKS /\
    (length (order_syrups o) <= MAX_SYRUPS)%nat /\
    0 <= order_sugar o <= 5 /\
    order_price o = Float (float_of_int z) /\
    z = exact_price (order_base o) (order_size o) (order_milk o)
                    (length (order_syrups o)) (order_iced o) /\
    200 <= z <= 688.
Proof.
  intros (_ & _ & _ & (s' & Hset' & Hle) & Hsugar) Hbuild.
  destruct (build_inv w l w' Hbuild)
    as (base & size_ & bp & m & mp & s & Hb & Hs & Hbp & Hm & Hmp & Hset & -> & ->).
  unfold has_set in Hset, Hset'. rewrite Hset in Hset'. injection Hset' as <-.
  pose proof (lookup_VALID_BASES _ _ Hbp) as Hvb.
  pose proof (lookup_VALID_SIZES _ _ Hm) as Hvs.
  pose proof (lookup_VALID_MILKS _ _ Hmp) as Hvm.
  rewrite (BASE_PRICES_lookup base Hvb) in Hbp. injection Hbp as <-.
  rewrite (SIZE_MULTIPLIERS_lookup size_ Hvs) in Hm. injection Hm as <-.
  rewrite (MILK_PRICES_lookup _ Hvm) in Hmp. injection Hmp as <-.
  eexists _, _. split.
  { unfold order_at; cbn. rewrite lookup_insert_eq. reflexivity. }
  cbn. rewrite length_sorted_elements.
  split; [exact Hvb|]. split; [exact Hvs|]. split; [exact Hvm|].
  split; [exact Hle|]. split; [exact Hsugar|]. split; [|split; [reflexivity|]].
  - rewrite price_of_spec by assumption. f_equal.
    apply spec_price_exact; assumption.
  - apply exact_price_bounds; assumption.
Qed.

Lemma X6_order_valid_witness :
  exists l w' o,
    build (run [SetBase "cappuccino"; SetSize "large"; SetMilk "oat"; AddSyrup "a";
                AddSyrup "b"; AddSyrup "c"; AddSyrup "d"; AddSyrup "e"; SetIced true]
               new_builder) = (Ok l, w') /\
    order_at l w' = Some o /\ order_price o = Float 688%float /\
    length (order_syrups o) = 4%nat.
Proof.
  set (w := run _ new_builder).
  assert (Hbuild : build w = (Ok (fresh (dom (heap w))), snd (build w)))
    by (vm_compute; reflexivity).
  destruct (X6_order_valid w _ _ (run_valid_state _ _ new_builder_valid) Hbuild)
    as (o & z & Hat & _ & _ & _ & _ & _ & Hprice & Hz & _).
  exists (fresh (dom (heap w))), (snd (build w)), o.
  split; [exact Hbuild|]. split; [exact Hat|].
  assert (Ho : order_at (fresh (dom (heap w))) (snd (build w)) =
               Some (mkOrder "cappuccino" "large" "oat" ["a"; "b"; "c"; "d"] 0 true
                             (Float 688%float)
                             "large cappuccino with oat milk + a, b, c, d (iced)"))
    by (vm_compute; reflexivity).
  rewrite Ho in Hat. injection Hat as <-. split; reflexivity.
Defined.

(** ** The messages of the catalogue checks *)

Lemma occurs_in_repr_set (s : gset string) v :
  v ∈ s -> occurs_in (repr_str v) (repr_set s).
Proof.
  intros Hv. unfold repr_set.
  destruct (decide (size s = 0%nat)) as [H0|H0].
  - apply size_empty_inv, leibniz_equiv in H0. subst s.
    now apply elem_of_empty in Hv.
  - apply occurs_in_app_r, occurs_in_app_l, occurs_in_join, list_elem_of_fmap_2,
      elem_of_elements, Hv.
Qed.

Lemma occurs_in_invalid_message kind x (s : gset string) :
  let msg := "Invalid " +:+ kind +:+ ": " +:+ x +:+ ". Allowed: " +:+ repr_set s in
  occurs_in x msg /\ forall v, v ∈ s -> occurs_in (repr_str v) msg.
Proof.
  cbn zeta. split.
  - apply occurs_in_app_r, occurs_in_app_r, occurs_in_app_r, occurs_in_app_l,
      occurs_in_refl.
  - intros v Hv.
    apply occurs_in_app_r, occurs_in_app_r, occurs_in_app_r, occurs_in_app_r,
      occurs_in_app_r, occurs_in_repr_set, Hv.
Qed.

(** X7: the error of [set_base], [set_size] and [set_milk] on a name
    outside the catalogue is a [ValueError] whose message shows the
    rejected name and, quoted, every allowed name, whatever the order in
    which the set is printed. *)
Theorem X7_invalid_selection_message x w :
  (x ∉ VALID_BASES ->
     exists msg, set_base x w = (Raise (ValueError msg), w) /\
       occurs_in x msg /\ forall v, v ∈ VALID_BASES -> occurs_in (repr_str v) msg) /\
  (x ∉ VALID_SIZES ->
     exists msg, set_size x w = (Raise (ValueError msg), w) /\
       occurs_in x msg /\ forall v, v ∈ VALID_SIZES -> occurs_in (repr_str v) msg) /\
  (x ∉ VALID_MILKS ->
     exists msg, set_milk x w = (Raise (ValueError msg), w) /\
       occurs_in x msg /\ forall v, v ∈ VALID_MILKS -> occurs_in (repr_str v) msg).
Proof.
  split; [|split]; intros Hx.
  - unfold set_base. destruct (decide (x ∉ VALID_BASES)); [|contradiction].
    eexists. split; [reflexivity|].
    apply (occurs_in_invalid_message "base" x VALID_BASES).
  - unfold set_size. destruct (decide (x ∉ VALID_SIZES)); [|contradiction].
    eexists. split; [reflexivity|].
    apply (occurs_in_invalid_message "size" x VALID_SIZES).
  - unfold set_milk. destruct (decide (x ∉ VALID_MILKS)); [|contradiction].
    eexists. split; [reflexivity|].
    apply (occurs_in_invalid_message "milk" x VALID_MILKS).
Qed.

Lemma X7_invalid_selection_message_witness :
  exists msg,
    set_base "mocha" new_builder = (Raise (ValueError msg), new_builder) /\
    occurs_in "mocha" msg /\ occurs_in "'latte'" msg.
Proof.
  destruct (proj1 (X7_invalid_selection_message "mocha" new_builder))
    as (msg & Hraise & Hx & Hall).
  - rewrite elem_of_VALID_BASES. intros [?|[?|[?|?]]]; discriminate.
  - exists msg. split; [exact Hraise|]. split; [exact Hx|].
    apply (Hall "latte"). apply elem_of_VALID_BASES. auto.
Defined.

(** ** Setters compose *)

(** X8: two setters of different attributes commute, valid arguments or
    not: a client that makes both calls, going on after a rejection,
    ends in the same state in either order. *)
Theorem X8_setters_commute c1 c2 f1 f2 w :
  field_set_by c1 = Some f1 -> field_set_by c2 = Some f2 -> f1 <> f2 ->
  run [c1; c2] w = run [c2; c1] w.
Proof.
  destruct c1, c2; cbn [field_set_by]; intros H1 H2 Hne;
    try discriminate; try congruence;
    setter_outcomes; reflexivity.
Qed.

Lemma X8_setters_commute_witness :
  run [SetMilk "oat"; SetSugar 9] new_builder = run [SetSugar 9; SetMilk "oat"] new_builder /\
  self_milk (self (run [SetSugar 9; SetMilk "oat"] new_builder)) = "oat".
Proof.
  split.
  - apply (X8_setters_commute (SetMilk "oat") (SetSugar 9) "milk" "sugar");
      [reflexivity|reflexivity|discriminate].
  - reflexivity.
Defined.

(** X9: the last valid value wins: an accepted setter call makes any
    earlier call of the same setter irrelevant, accepted or rejected. *)
Theorem X9_last_write_wins c1 c2 f w :
  field_set_by c1 = Some f -> field_set_by c2 = Some f -> ~ invalid_argument c2 ->
  run [c1; c2] w = run [c2] w.
Proof.
  destruct c1, c2; cbn [field_set_by invalid_argument]; intros H1 H2 Hvalid;
    try discriminate; try congruence;
    setter_outcomes; try reflexivity; try contradiction; try lia.
Qed.

Lemma X9_last_write_wins_witness :
  run [SetBase "latte"; SetBase "espresso"] new_builder = run [SetBase "espresso"] new_builder /\
  self_base (self (run [SetBase "espresso"] new_builder)) = Some "espresso".
Proof.
  split.
  - apply (X9_last_write_wins (SetBase "latte") (SetBase "espresso") "base");
      [reflexivity|reflexivity|].
    cbn. intros H. apply H. apply elem_of_VALID_BASES. auto.
  - reflexivity.
Defined.

(** ** Two syrups, in either order *)

Lemma run_add_syrup_room a w s :
  has_set w s -> (size s < MAX_SYRUPS)%nat ->
  run [AddSyrup a] w =
    mkWorld (<[self_syrups (self w) := ObjSet ({[a]} ∪ s)]> (heap w)) (self w).
Proof.
  intros Hset Hroom. unfold run; cbn [foldl exec].
  now rewrite (add_syrup_room a w s Hset Hroom).
Qed.

Lemma run_add_syrup_full a w s :
  has_set w s -> (MAX_SYRUPS <= size s)%nat -> run [AddSyrup a] w = w.
Proof.
  intros Hset Hfull. unfold run; cbn [foldl exec].
  now rewrite (add_syrup_full a w s Hset Hfull).
Qed.

Lemma has_set_after_add a w s :
  has_set (mkWorld (<[self_syrups (self w) := ObjSet ({[a]} ∪ s)]> (heap w)) (self w))
          ({[a]} ∪ s).
Proof. unfold has_set; cbn. apply lookup_insert_eq. Qed.

Lemma run_app cs1 cs2 w : run (cs1 ++ cs2) w = run cs2 (run cs1 w).
Proof. unfold run. apply foldl_app. Qed.

Lemma size_add_new (a : string) (s : gset string) :
  a ∉ s -> size ({[a]} ∪ s) = S (size s).
Proof.
  intros Ha. rewrite size_union by now apply disjoint_singleton_l.
  now rewrite size_singleton.
Qed.

(** X10: with room for two more syrups, two [add_syrup] calls commute,
    and both names are in the set afterwards. *)
Theorem X10_add_syrup_commute a b w s :
  has_set w s -> (size s + 2 <= MAX_SYRUPS)%nat ->
  run [AddSyrup a; AddSyrup b] w = run [AddSyrup b; AddSyrup a] w /\
  has_set (run [AddSyrup a; AddSyrup b] w) ({[a]} ∪ ({[b]} ∪ s)).
Proof.
  intros Hset Hroom.
  pose proof (size_add_le a s) as Ha. pose proof (size_add_le b s) as Hb.
  change [AddSyrup a; AddSyrup b] with ([AddSyrup a] ++ [AddSyrup b])%list.
  change [AddSyrup b; AddSyrup a] with ([AddSyrup b] ++ [AddSyrup a])%list.
  rewrite !run_app.
  rewrite (run_add_syrup_room a w s), (run_add_syrup_room b w s) by (assumption || lia).
  rewrite (run_add_syrup_room b _ ({[a]} ∪ s))
    by (apply has_set_after_add || lia).
  rewrite (run_add_syrup_room a _ ({[b]} ∪ s))
    by (apply has_set_after_add || lia).
  cbn. rewrite !insert_insert_eq.
  assert (Heq : ({[b]} ∪ ({[a]} ∪ s) : gset string) = {[a]} ∪ ({[b]} ∪ s))
    by (rewrite !(assoc_L (∪)); now rewrite (comm_L (∪) {[b]} {[a]})).
  rewrite Heq. split; [reflexivity|].
  unfold has_set; cbn. apply lookup_insert_eq.
Qed.

Lemma X10_add_syrup_commute_witness :
  run [AddSyrup "vanilla"; AddSyrup "caramel"] new_builder
  = run [AddSyrup "caramel"; AddSyrup "vanilla"] new_builder.
Proof.
  apply (X10_add_syrup_commute "vanilla" "caramel" new_builder ∅).
  - vm_compute. reflexivity.
  - vm_compute. lia.
Defined.

(** X11: with room for one syrup only, the first of two new names is
    stored and the second is dropped without an error, so that the order
    of the two calls decides which syrup the drink gets. *)
Theorem X11_last_place_first_served a b w s :
  has_set w s -> S (size s) = MAX_SYRUPS -> a ∉ s -> b ∉ s -> a <> b ->
  add_syrup b (run [AddSyrup a] w) = (Ok tt, run [AddSyrup a] w) /\
  has_set (run [AddSyrup a; AddSyrup b] w) ({[a]} ∪ s) /\
  has_set (run [AddSyrup b; AddSyrup a] w) ({[b]} ∪ s) /\
  (b ∉ ({[a]} ∪ s : gset string)) /\ (a ∉ ({[b]} ∪ s : gset string)).
Proof.
  intros Hset Hlast Ha Hb Hne.
  pose proof (size_add_new a s Ha) as Hsa. pose proof (size_add_new b s Hb) as Hsb.
  change [AddSyrup a; AddSyrup b] with ([AddSyrup a] ++ [AddSyrup b])%list.
  change [AddSyrup b; AddSyrup a] with ([AddSyrup b] ++ [AddSyrup a])%list.
  rewrite !run_app.
  rewrite (run_add_syrup_room a w s), (run_add_syrup_room b w s) by (assumption || lia).
  rewrite (run_add_syrup_full b _ ({[a]} ∪ s)) by (apply has_set_after_add || lia).
  rewrite (run_add_syrup_full a _ ({[b]} ∪ s)) by (apply has_set_after_add || lia).
  split; [|split; [|split; [|split]]].
  - apply (add_syrup_full b _ ({[a]} ∪ s)); [apply has_set_after_add|lia].
  - apply has_set_after_add.
  - apply has_set_after_add.
  - rewrite elem_of_union, elem_of_singleton. intros [?|?]; [congruence|contradiction].
  - rewrite elem_of_union, elem_of_singleton. intros [?|?]; [congruence|contradiction].
Qed.

Lemma X11_last_place_first_served_witness :
  let w := run [AddSyrup "a"; AddSyrup "b"; AddSyrup "c"] new_builder in
  has_set (run [AddSyrup "d"; AddSyrup "e"] w) ({["d"]} ∪ ({["a"]} ∪ ({["b"]} ∪ {["c"]}))) /\
  has_set (run [AddSyrup "e"; AddSyrup "d"] w) ({["e"]} ∪ ({["a"]} ∪ ({["b"]} ∪ {["c"]}))).
Proof.
  intros w.
  destruct (X11_last_place_first_served "d" "e" w ({["a"]} ∪ ({["b"]} ∪ {["c"]})))
    as (_ & Hde & Hed & _).
  - vm_compute. reflexivity.
  - vm_compute. reflexivity.
  - rewrite !elem_of_union, !elem_of_singleton. intros [?|[?|?]]; discriminate.
  - rewrite !elem_of_union, !elem_of_singleton. intros [?|[?|?]]; discriminate.
  - discriminate.
  - split; assumption.
Defined.

(** ** [reset] and [clear_extras] *)

(** X12: whatever the state, valid or not, [reset] succeeds and leaves a
    valid builder with no base, no size, no milk, no syrup, no sugar, not
    iced, on which [build] asks for the base. *)
Theorem X12_reset_defaults w :
  exists w',
    reset w = (Ok tt, w') /\
    self_base (self w') = None /\ self_size (self w') = None /\
    self_milk (self w') = "none" /\ has_set w' ∅ /\
    self_sugar (self w') = 0 /\ self_iced (self w') = false /\
    valid_state w' /\
    build w' = (Raise (ValueError "Base must be set"), w').
Proof.
  eexists. split; [apply reset_ok|]. cbn.
  assert (Hset : has_set
            (mkWorld (<[fresh (dom (heap w)) := ObjSet ∅]> (heap w))
                     (mkBuilder None None "none" (fresh (dom (heap w))) 0 false)) ∅)
    by (unfold has_set; cbn; apply lookup_insert_eq).
  split; [reflexivity|]. split; [reflexivity|]. split; [reflexivity|].
  split; [exact Hset|]. split; [reflexivity|]. split; [reflexivity|].
  split; [|reflexivity].
  split; [discriminate|]. split; [discriminate|].
  split; [apply elem_of_VALID_MILKS; auto|].
  split; [|cbn; lia].
  exists ∅. split; [exact Hset|]. rewrite size_empty. unfold MAX_SYRUPS. lia.
Qed.

(** X13: [clear_extras] empties the set object the builder already has,
    in place, while [reset] gives the builder a new set and leaves the
    old object with its elements: a reference a client kept to
    [builder.syrups] sees the first and not the second. *)
Theorem X13_clear_in_place_reset_afresh w s :
  has_set w s ->
  self_syrups (self (snd (clear_extras w))) = self_syrups (self w) /\
  heap (snd (clear_extras w)) !! self_syrups (self w) = Some (ObjSet ∅) /\
  self_syrups (self (snd (reset w))) <> self_syrups (self w) /\
  heap (snd (reset w)) !! self_syrups (self w) = Some (ObjSet s).
Proof.
  intros Hset. rewrite (clear_extras_ok w s Hset), reset_ok. cbn.
  assert (Hne : self_syrups (self w) <> fresh (dom (heap w)))
    by (eapply fresh_heap_ne; exact Hset).
  split; [reflexivity|]. split; [apply lookup_insert_eq|].
  split; [congruence|]. rewrite lookup_insert_ne by congruence. exact Hset.
Qed.

Lemma X13_clear_in_place_reset_afresh_witness :
  let w := snd (add_syrup "vanilla" new_builder) in
  heap (snd (clear_extras w)) !! self_syrups (self w) = Some (ObjSet ∅) /\
  heap (snd (reset w)) !! self_syrups (self w) = Some (ObjSet {["vanilla"]}).
Proof.
  intros w.
  destruct (X13_clear_in_place_reset_afresh w {["vanilla"]}) as (_ & Hclear & _ & Hreset).
  - vm_compute. reflexivity.
  - split; assumption.
Defined.

(** ** What no call undoes *)

Lemma exec_syrups_grow c w s :
  has_set w s -> c <> ClearExtras -> c <> Reset ->
  exists s', has_set (snd (exec c w)) s' /\ s ⊆ s'.
Proof.
  intros Hset Hc Hr.
  destruct c as [base|size_|milk|x|n|b| | |]; cbn [exec]; try congruence.
  - destruct (decide (base ∈ VALID_BASES)) as [H|H].
    + rewrite set_base_ok by assumption. now exists s.
    + destruct (set_base_raise base w H) as [msg ->]. now exists s.
  - destruct (decide (size_ ∈ VALID_SIZES)) as [H|H].
    + rewrite set_size_ok by assumption. now exists s.
    + destruct (set_size_raise size_ w H) as [msg ->]. now exists s.
  - destruct (decide (milk ∈ VALID_MILKS)) as [H|H].
    + rewrite set_milk_ok by assumption. now exists s.
    + destruct (set_milk_raise milk w H) as [msg ->]. now exists s.
  - destruct (le_lt_dec MAX_SYRUPS (size s)) as [Hfull|Hroom].
    + rewrite (add_syrup_full x w s) by assumption. now exists s.
    + rewrite (add_syrup_room x w s) by assumption. exists ({[x]} ∪ s).
      split; [apply has_set_after_add|apply union_subseteq_r].
  - destruct (decide (0 <= n <= 5)) as [H|H].
    + rewrite set_sugar_ok by assumption. now exists s.
    + rewrite set_sugar_raise by lia. now exists s.
  - rewrite set_iced_ok. now exists s.
  - unfold mbind, M_bind.
    destruct (build_cases w) as [[e ->]|[o ->]]; [now exists s|].
    exists s. split; [|reflexivity]. unfold has_set; cbn.
    rewrite lookup_insert_ne; [exact Hset|].
    apply not_eq_sym. eapply fresh_heap_ne; exact Hset.
Qed.

(** X14: a syrup once added stays until [clear_extras] or [reset]: no
    other call, in any number and order, takes a name out of the set. *)
Theorem X14_syrups_only_grow cs w s :
  has_set w s -> ClearExtras ∉ cs -> Reset ∉ cs ->
  exists s', has_set (run cs w) s' /\ s ⊆ s'.
Proof.
  revert w s. induction cs as [|c cs IH]; intros w s Hset Hc Hr.
  - now exists s.
  - rewrite run_cons. rewrite not_elem_of_cons in Hc, Hr.
    destruct Hc as [Hc Hcs], Hr as [Hr Hrs].
    destruct (exec_syrups_grow c w s Hset) as (s1 & Hset1 & Hsub1); [congruence..|].
    destruct (IH _ s1 Hset1 Hcs Hrs) as (s' & Hset' & Hsub').
    exists s'. split; [exact Hset'|]. etrans; eassumption.
Qed.

Lemma X14_syrups_only_grow_witness :
  exists s',
    has_set (run [SetBase "latte"; SetSize "wrong"; Build; AddSyrup "caramel";
                  SetSugar 7; SetIced true; Build]
                 (snd (add_syrup "vanilla" new_builder))) s' /\
    "vanilla" ∈ s'.
Proof.
  destruct (X14_syrups_only_grow
              [SetBase "latte"; SetSize "wrong"; Build; AddSyrup "caramel";
               SetSugar 7; SetIced true; Build]
              (snd (add_syrup "vanilla" new_builder)) {["vanilla"]})
    as (s' & Hset & Hsub).
  - vm_compute. reflexivity.
  - rewrite !not_elem_of_cons. repeat split; try discriminate. apply not_elem_of_nil.
  - rewrite !not_elem_of_cons. repeat split; try discriminate. apply not_elem_of_nil.
  - exists s'. split; [exact Hset|]. apply Hsub. now apply elem_of_singleton.
Defined.

Lemma exec_keeps_required c w :
  valid_state w -> c <> Reset ->
  self_base (self w) <> None -> self_size (self w) <> None ->
  self_base (self (snd (exec c w))) <> None /\
  self_size (self (snd (exec c w))) <> None.
Proof.
  intros (_ & _ & _ & (s & Hset & _) & _) Hc Hb Hs.
  destruct c as [base|size_|milk|x|n|b| | |]; cbn [exec]; try congruence.
  - destruct (decide (base ∈ VALID_BASES)) as [H|H].
    + rewrite set_base_ok by assumption. cbn. split; [discriminate|exact Hs].
    + destruct (set_base_raise base w H) as [msg ->]. now split.
  - destruct (decide (size_ ∈ VALID_SIZES)) as [H|H].
    + rewrite set_size_ok by assumption. cbn. split; [exact Hb|discriminate].
    + destruct (set_size_raise size_ w H) as [msg ->]. now split.
  - destruct (decide (milk ∈ VALID_MILKS)) as [H|H].
    + rewrite set_milk_ok by assumption. now split.
    + destruct (set_milk_raise milk w H) as [msg ->]. now split.
  - destruct (le_lt_dec MAX_SYRUPS (size s)) as [Hfull|Hroom].
    + rewrite (add_syrup_full x w s) by assumption. now split.
    + rewrite (add_syrup_room x w s) by assumption. now split.
  - destruct (decide (0 <= n <= 5)) as [H|H].
    + rewrite set_sugar_ok by assumption. now split.
    + rewrite set_sugar_raise by lia. now split.
  - rewrite set_iced_ok. now split.
  - rewrite (clear_extras_ok w s) by assumption. now split.
  - unfold mbind, M_bind.
    destruct (build_cases w) as [[e ->]|[o ->]]; now split.
Qed.

(** X15: a builder that has a base and a size keeps them through every
    call but [reset], rejected calls included, so that [build] goes on
    succeeding after any sequence of calls without [reset]. *)
Theorem X15_stays_buildable cs w :
  valid_state w ->
  self_base (self w) <> None -> self_size (self w) <> None ->
  Reset ∉ cs ->
  exists l w', build (run cs w) = (Ok l, w').
Proof.
  revert w. induction cs as [|c cs IH]; intros w Hw Hb Hs Hr.
  - destruct Hw as (Hvb & Hvs & Hvm & (s & Hset & _) & _).
    destruct (self_base (self w)) as [base|] eqn:Ebase; [|congruence].
    destruct (self_size (self w)) as [size_|] eqn:Esize; [|congruence].
    eexists _, _. cbn [run foldl].
    eapply build_ok; eauto using BASE_PRICES_lookup, SIZE_MULTIPLIERS_lookup,
      MILK_PRICES_lookup.
  - rewrite run_cons. rewrite not_elem_of_cons in Hr. destruct Hr as [Hc Hcs].
    destruct (exec_keeps_required c w Hw) as [Hb' Hs']; [congruence|assumption..|].
    apply IH; auto using exec_valid_state.
Qed.

Lemma X15_stays_buildable_witness :
  exists l w',
    build (run [SetBase "mocha"; ClearExtras; SetSugar 9; AddSyrup "x"; Build;
                SetSize "large"]
               (run [SetBase "latte"; SetSize "small"] new_builder)) = (Ok l, w').
Proof.
  apply X15_stays_buildable.
  - apply run_valid_state, new_builder_valid.
  - discriminate.
  - discriminate.
  - rewrite !not_elem_of_cons. repeat split; try discriminate. apply not_elem_of_nil.
Defined.

(** X16: the fields of a builder are valid at all times: a new builder
    is valid, and every call of every method, accepted or rejected,
    takes a valid state to a valid state. *)
Theorem X16_state_always_valid :
  valid_state new_builder /\
  (forall c w, valid_state w -> valid_state (snd (exec c w))) /\
  (forall cs, valid_state (run cs new_builder)).
Proof.
  split; [apply new_builder_valid|]. split.
  - apply exec_valid_state.
  - intros cs. apply run_valid_state, new_builder_valid.
Qed.

Lemma X16_state_always_valid_witness :
  let w := run [SetSugar 9; SetMilk "goat"; SetSugar 4; AddSyrup "a"; AddSyrup "b";
                AddSyrup "c"; AddSyrup "d"; AddSyrup "e"; SetMilk "soy"] new_builder in
  self_milk (self w) ∈ VALID_MILKS /\ 0 <= self_sugar (self w) <= 5 /\
  exists s, has_set w s /\ (size s <= MAX_SYRUPS)%nat.
Proof.
  intros w.
  destruct X16_state_always_valid as (_ & _ & Hrun).
  destruct (Hrun [SetSugar 9; SetMilk "goat"; SetSugar 4; AddSyrup "a"; AddSyrup "b";
                  AddSyrup "c"; AddSyrup "d"; AddSyrup "e"; SetMilk "soy"])
    as (_ & _ & Hmilk & Hset & Hsugar).
  split; [exact Hmilk|]. split; [exact Hsugar|exact Hset].
Defined.

(** ** [__str__] *)

Lemma description_of_nonempty base size_ milk (s : gset string) sugar iced :
  description_of base size_ milk s sugar iced <> "".
Proof.
  rewrite description_of_spec. unfold spec_description.
  rewrite !string_app_assoc.
  destruct size_ as [|c size_]; intros H; inversion H.
Qed.

(** X17: an order that [build] returns has a description that is not
    empty, so that its [str] is that description: the fallback to the
    price is never taken for such an order. *)
Theorem X17_str_is_description w l w' :
  build w = (Ok l, w') ->
  exists o,
    order_at l w' = Some o /\
    order_description o <> "" /\ order_str o = order_description o.
Proof.
  intros Hbuild.
  destruct (build_inv w l w' Hbuild)
    as (base & size_ & bp & m & mp & s & _ & _ & _ & _ & _ & _ & -> & ->).
  eexists. split.
  { unfold order_at; cbn. rewrite lookup_insert_eq. reflexivity. }
  unfold order_str; cbn.
  pose proof (description_of_nonempty base size_ (self_milk (self w)) s
                (self_sugar (self w)) (self_iced (self w))) as Hne.
  destruct (description_of _ _ _ _ _ _); [contradiction|]. split; [discriminate|reflexivity].
Qed.

Lemma X17_str_is_description_witness :
  exists l w' o,
    scenario_basic_order new_builder = (Ok l, w') /\ order_at l w' = Some o /\
    order_str o = "medium latte with oat milk + vanilla (iced) 2 tsp sugar".
Proof.
  set (w := snd ((set_base "latte";; set_size "medium";; set_milk "oat";;
                  add_syrup "vanilla";; set_sugar 2;; set_iced true) new_builder)).
  assert (Hbuild : build w = (Ok (fresh (dom (heap w))), snd (build w)))
    by (vm_compute; reflexivity).
  destruct (X17_str_is_description w _ _ Hbuild) as (o & Hat & _ & Hstr).
  exists (fresh (dom (heap w))), (snd (build w)), o.
  split; [vm_compute; reflexivity|]. split; [exact Hat|].
  rewrite Hstr.
  assert (Ho : order_description <$> order_at (fresh (dom (heap w))) (snd (build w)) =
               Some "medium latte with oat milk + vanilla (iced) 2 tsp sugar")
    by (vm_compute; reflexivity).
  rewrite Hat in Ho. now injection Ho.
Defined.

Lemma format_2f_whole z :
  0 <= z <= 1000 -> format_2f (float_of_int z) = pretty z +:+ ".00".
Proof.
  intros Hz.
  assert (H : forallb (fun z => String.eqb (format_2f (float_of_int z))
                                           (pretty z +:+ ".00"))
                      (seqZ 0 1001) = true)
    by (vm_compute; reflexivity).
  rewrite forallb_forall in H.
  apply String.eqb_eq, H, list_elem_of_In, elem_of_seqZ. lia.
Qed.

(** X18: an order whose description is empty prints as its price with
    two decimals: for a whole price [z] up to 1000, stored as an [int]
    or as the [float] of that value, [str] is ["Price: z.00"]. *)
Theorem X18_str_fallback o z :
  order_description o = "" ->
  order_price o = Int z \/ order_price o = Float (float_of_int z) ->
  0 <= z <= 1000 ->
  order_str o = "Price: " +:+ pretty z +:+ ".00".
Proof.
  intros Hd Hp Hz. unfold order_str. rewrite Hd.
  destruct Hp as [-> | ->]; cbn [format_price]; now rewrite format_2f_whole.
Qed.

Lemma X18_str_fallback_witness :
  order_str (mkOrder "latte" "medium" "none" [] 0 false (Float 360%float) "")
  = "Price: 360.00".
Proof.
  apply (X18_str_fallback (mkOrder "latte" "medium" "none" [] 0 false (Float 360%float) "")
                          360).
  - reflexivity.
  - right. reflexivity.
  - lia.
Defined.

(** ** Prices of related orders *)

Lemma order_price_exact w base size_ s :
  base ∈ VALID_BASES -> size_ ∈ VALID_SIZES -> self_milk (self w) ∈ VALID_MILKS ->
  (size s <= MAX_SYRUPS)%nat ->
  order_price
    (order_of (self w) base size_ (Int (basePriceOf base))
       (Float (sizeMultiplierOf size_))
       (if String.eqb (self_milk (self w)) "none" then Float 0%float
        else Int (milkPriceOf (self_milk (self w)))) s)
  = Float (float_of_int
             (exact_price base size_ (self_milk (self w)) (size s) (self_iced (self w)))).
Proof.
  intros Hvb Hvs Hvm Hle. cbn.
  rewrite price_of_spec by assumption. f_equal. now apply spec_price_exact.
Qed.

(** X19: one more syrup costs 40 more, exactly: built before and after
    [add_syrup] of a new name that fits, the two orders have whole prices
    40 apart. *)
Theorem X19_syrup_costs_forty w base size_ s syrup_name :
  valid_state w ->
  self_base (self w) = Some base -> self_size (self w) = Some size_ ->
  has_set w s -> (size s < MAX_SYRUPS)%nat -> syrup_name ∉ s ->
  exists l0 l1 w' o0 o1 z,
    (l0 ← build; add_syrup syrup_name;; l1 ← build; mret (l0, l1)) w
      = (Ok (l0, l1), w') /\
    order_at l0 w' = Some o0 /\ order_at l1 w' = Some o1 /\
    z = exact_price base size_ (self_milk (self w)) (size s) (self_iced (self w)) /\
    order_price o0 = Float (float_of_int z) /\
    order_price o1 = Float (float_of_int (z + 40)).
Proof.
  intros (Hvb & Hvs & Hvm & _ & _) Hb Hs Hset Hroom Hnew.
  specialize (Hvb _ Hb). specialize (Hvs _ Hs).
  pose proof (BASE_PRICES_lookup base Hvb) as Hbp.
  pose proof (SIZE_MULTIPLIERS_lookup size_ Hvs) as Hm.
  pose proof (MILK_PRICES_lookup _ Hvm) as Hmp.
  pose proof (build_ok w base size_ _ _ _ s Hb Hs Hbp Hm Hmp Hset) as Hbuild0.
  set (l0 := fresh (dom (heap w))) in *.
  set (o0 := order_of (self w) base size_ _ _ _ s) in *.
  set (w1 := mkWorld (<[l0 := ObjOrder o0]> (heap w)) (self w)) in *.
  assert (Hne0 : self_syrups (self w) <> l0) by (eapply fresh_heap_ne; exact Hset).
  assert (Hset1 : has_set w1 s).
  { unfold has_set, w1; cbn. rewrite lookup_insert_ne by congruence. exact Hset. }
  pose proof (add_syrup_room syrup_name w1 s Hset1 Hroom) as Hadd.
  set (w2 := mkWorld (<[self_syrups (self w1) := _]> (heap w1)) (self w1)) in *.
  assert (Hset2 : has_set w2 ({[syrup_name]} ∪ s)) by apply has_set_after_add.
  pose proof (build_ok w2 base size_ _ _ _ _ Hb Hs Hbp Hm Hmp Hset2) as Hbuild1.
  set (l1 := fresh (dom (heap w2))) in *.
  set (o1 := order_of (self w2) base size_ _ _ _ _) in *.
  assert (Hl : l0 <> l1).
  { apply (fresh_heap_ne (heap w2) l0 (ObjOrder o0)).
    unfold w2, w1; cbn. rewrite lookup_insert_ne by congruence. apply lookup_insert_eq. }
  exists l0, l1. eexists _, o0, o1, _.
  split; [|split; [|split; [|split; [reflexivity|split]]]].
  - unfold mbind, M_bind. rewrite Hbuild0, Hadd, Hbuild1. reflexivity.
  - unfold order_at; cbn. rewrite lookup_insert_ne by congruence.
    rewrite lookup_insert_ne by congruence. rewrite lookup_insert_eq. reflexivity.
  - unfold order_at; cbn. rewrite lookup_insert_eq. reflexivity.
  - apply (order_price_exact w); try assumption. lia.
  - unfold o1. change (self w2) with (self w).
    rewrite (order_price_exact w) by (try assumption; rewrite size_add_new by assumption; lia).
    rewrite size_add_new by assumption. f_equal. f_equal.
    unfold exact_price. rewrite Nat2Z.inj_succ. lia.
Qed.

Lemma X19_syrup_costs_forty_witness :
  let w := run [SetBase "espresso"; SetSize "medium"; AddSyrup "vanilla"] new_builder in
  exists l0 l1 w' o0 o1,
    (l0 ← build; add_syrup "mint";; l1 ← build; mret (l0, l1)) w
      = (Ok (l0, l1), w') /\
    order_at l0 w' = Some o0 /\ order_at l1 w' = Some o1 /\
    order_price o0 = Float 280%float /\ order_price o1 = Float 320%float.
Proof.
  intros w.
  destruct (X19_syrup_costs_forty w "espresso" "medium" {["vanilla"]} "mint")
    as (l0 & l1 & w' & o0 & o1 & z & Hrun & Hat0 & Hat1 & Hz & Hp0 & Hp1).
  - apply run_valid_state, new_builder_valid.
  - reflexivity.
  - reflexivity.
  - vm_compute. reflexivity.
  - vm_compute. lia.
  - rewrite elem_of_singleton. discriminate.
  - exists l0, l1, w', o0, o1.
    split; [exact Hrun|]. split; [exact Hat0|]. split; [exact Hat1|].
    assert (Hz' : z = 280) by (rewrite Hz; vm_compute; reflexivity).
    subst z. split; [exact Hp0|exact Hp1].
Defined.

(** X20: [clear_extras] followed by [build] gives the plain drink:
    described by size and base alone, with no milk, syrup, sugar or ice,
    at the base price times the multiplier, a whole number. *)
Theorem X20_clear_then_build w base size_ s :
  self_base (self w) = Some base -> self_size (self w) = Some size_ ->
  base ∈ VALID_BASES -> size_ ∈ VALID_SIZES -> has_set w s ->
  exists l w' o,
    (clear_extras;; build) w = (Ok l, w') /\ order_at l w' = Some o /\
    order_description o = size_ +:+ " " +:+ base /\
    order_milk o = "none" /\ order_syrups o = [] /\
    order_sugar o = 0 /\ order_iced o = false /\
    order_price o = Float (float_of_int (basePriceOf base * sizeTenthsOf size_ / 10)).
Proof.
  intros Hb Hs Hvb Hvs Hset.
  pose proof (clear_extras_ok w s Hset) as Hclear.
  set (w1 := mkWorld _ _) in Hclear.
  assert (Hset1 : has_set w1 ∅) by (unfold has_set, w1; cbn; apply lookup_insert_eq).
  assert (Hnone : "none" ∈ VALID_MILKS) by (apply elem_of_VALID_MILKS; auto).
  pose proof (build_ok w1 base size_ _ _ _ ∅ Hb Hs (BASE_PRICES_lookup base Hvb)
                (SIZE_MULTIPLIERS_lookup size_ Hvs) (MILK_PRICES_lookup "none" Hnone) Hset1)
    as Hbuild.
  eexists _, _, _. split.
  { unfold mbind, M_bind. rewrite Hclear. exact Hbuild. }
  split. { unfold order_at; cbn. rewrite lookup_insert_eq. reflexivity. }
  cbn. rewrite elements_empty, size_empty.
  split; [reflexivity|]. split; [reflexivity|]. split; [reflexivity|].
  split; [reflexivity|]. split; [reflexivity|].
  change (price_of (Int (basePriceOf base)) (Float (sizeMultiplierOf size_))
                   (Float 0%float) 0 false
          = Float (float_of_int (basePriceOf base * sizeTenthsOf size_ / 10))).
  pose proof (price_of_spec base size_ "none" 0 false Hvb Hvs Hnone) as Hprice.
  change (if String.eqb "none" "none" then Float 0%float else Int (milkPriceOf "none"))
    with (Float 0%float) in Hprice.
  rewrite Hprice. f_equal.
  rewrite spec_price_exact by (try assumption; unfold MAX_SYRUPS; lia).
  f_equal. unfold exact_price.
  change (milkPriceOf "none") with 0. change (Z.of_nat 0 * 40) with 0. lia.
Qed.

Lemma X20_clear_then_build_witness :
  let w := snd ((set_base "americano";; set_size "large";; set_milk "oat";;
                 add_syrup "vanilla";; set_sugar 2;; set_iced true) new_builder) in
  exists l w' o,
    (clear_extras;; build) w = (Ok l, w') /\ order_at l w' = Some o /\
    order_description o = "large americano" /\ order_price o = Float 350%float.
Proof.
  intros w.
  destruct (X20_clear_then_build w "americano" "large" {["vanilla"]})
    as (l & w' & o & Hrun & Hat & Hd & _ & _ & _ & _ & Hp).
  - reflexivity.
  - reflexivity.
  - apply elem_of_VALID_BASES; auto.
  - apply elem_of_VALID_SIZES; auto.
  - vm_compute. reflexivity.
  - exists l, w', o. split; [exact Hrun|]. split; [exact Hat|].
    split; [exact Hd|exact Hp].
Defined.
